(** * StarbaseDB: the query pipeline of [handler.ts] and of the operation module

    A shallow embedding of the gateway's request handler ([StarbaseDB],
    [queryRoute], the route table of [handle]) and of the operation module
    ([executeQuery], [executeTransaction], [executeExternalQuery],
    [executeSDKQuery], [transformRawResults]), followed by the properties
    of the specification that can be stated over them. *)

From Stdlib Require Import String Ascii List ZArith NArith Bool Arith Lia.
From Stdlib Require Import DecimalString DecimalNat.
Import ListNotations.

Local Open Scope string_scope.
Local Open Scope list_scope.

Set Warnings "-register-all".

(* ===================================================================== *)
(** ** JavaScript values, objects and the string methods the code uses    *)
(* ===================================================================== *)

Module Js.

(** A JavaScript value as it travels through the pipeline ([any] in the
    TypeScript source).  Numbers are kept to the integers. *)
Inductive JsValue : Type :=
| VUndefined
| VNull
| VBool (b : bool)
| VNum (n : Z)
| VStr (s : string)
| VArr (items : list JsValue)
| VObj (props : list (string * JsValue))
| VFunction (name : string).   (* a built-in function, by its name *)

(** An ordinary object: its own enumerable string-keyed properties, held in
    the order [Object.keys] reports them (array-index keys first, ascending,
    then the other keys in creation order).  Its prototype is
    [Object.prototype]. *)
Definition JsObject : Type := list (string * JsValue).

Definition is_digit (c : ascii) : bool :=
  let n := nat_of_ascii c in (48 <=? n)%nat && (n <=? 57)%nat.

Fixpoint digits_value (s : string) (acc : N) : option N :=
  match s with
  | EmptyString => Some acc
  | String c r =>
      if is_digit c
      then digits_value r (10 * acc + N.of_nat (nat_of_ascii c - 48))%N
      else None
  end.

(** [array_index k] is [Some i] when [k] is the canonical decimal form of an
    array index [i] (no leading zero, [i < 2^32 - 1]). *)
Definition array_index (k : string) : option N :=
  match k with
  | EmptyString => None
  | String c r =>
      if is_digit c then
        if (Ascii.eqb c "0" && negb (String.eqb r ""))%bool then None
        else match digits_value k 0 with
             | Some n => if (n <? 4294967295)%N then Some n else None
             | None => None
             end
      else None
  end.

Fixpoint obj_has (o : JsObject) (k : string) : bool :=
  match o with
  | [] => false
  | (k', _) :: rest => if String.eqb k' k then true else obj_has rest k
  end.

(** The own property [k] of [o]. *)
Fixpoint obj_get (o : JsObject) (k : string) : JsValue :=
  match o with
  | [] => VUndefined
  | (k', v) :: rest => if String.eqb k' k then v else obj_get rest k
  end.

(** The methods of [Object.prototype]. *)
Definition object_prototype_methods : list string :=
  ["constructor"; "__defineGetter__"; "__defineSetter__"; "hasOwnProperty";
   "__lookupGetter__"; "__lookupSetter__"; "isPrototypeOf";
   "propertyIsEnumerable"; "toString"; "valueOf"; "toLocaleString"].

(** [Object.prototype[k]], what an ordinary object without an own property
    [k] gives: a method, through the accessor ["__proto__"] the prototype
    itself (an object without enumerable properties), and otherwise
    [undefined]. *)
Definition inherited (k : string) : JsValue :=
  if String.eqb k "__proto__" then VObj []
  else if existsb (String.eqb k) object_prototype_methods then VFunction k
  else VUndefined.

(** The read [o[k]]: the own property, and without one the inherited. *)
Definition obj_read (o : JsObject) (k : string) : JsValue :=
  if obj_has o k then obj_get o k else inherited k.

Fixpoint obj_update (o : JsObject) (k : string) (v : JsValue) : JsObject :=
  match o with
  | [] => []
  | (k', v') :: rest =>
      if String.eqb k' k then (k', v) :: rest
      else (k', v') :: obj_update rest k v
  end.

(** A new array-index key goes before the first key that is not an array
    index or is a larger one. *)
Fixpoint insert_index (i : N) (k : string) (v : JsValue) (o : JsObject)
  : JsObject :=
  match o with
  | [] => [(k, v)]
  | (k', v') :: rest =>
      match array_index k' with
      | Some j =>
          if (j <? i)%N then (k', v') :: insert_index i k v rest
          else (k, v) :: o
      | None => (k, v) :: o
      end
  end.

(** CreateDataProperty: what an object literal does for each of its
    properties, a computed key included. *)
Definition obj_define (o : JsObject) (k : string) (v : JsValue) : JsObject :=
  if obj_has o k then obj_update o k v
  else match array_index k with
       | Some i => insert_index i k v o
       | None => o ++ [(k, v)]
       end.

(** The assignment [o[k] = v] on an ordinary object.  Assigning to
    ["__proto__"] goes to the accessor of [Object.prototype] and creates no
    own property. *)
Definition obj_set (o : JsObject) (k : string) (v : JsValue) : JsObject :=
  if String.eqb k "__proto__" then o else obj_define o k v.

(** [Object.keys(o)]. *)
Definition obj_keys (o : JsObject) : list string := map fst o.

(** [Array.isArray(v)]. *)
Definition isArray (v : JsValue) : bool :=
  match v with VArr _ => true | _ => false end.

(** [typeof v], for the results the code compares against. *)
Inductive JsType : Type :=
| TUndefined | TObject | TBoolean | TNumber | TString | TFunction.

Definition typeof (v : JsValue) : JsType :=
  match v with
  | VUndefined => TUndefined
  | VNull => TObject
  | VBool _ => TBoolean
  | VNum _ => TNumber
  | VStr _ => TString
  | VArr _ => TObject
  | VObj _ => TObject
  | VFunction _ => TFunction
  end.

Definition is_object_type (t : JsType) : bool :=
  match t with TObject => true | _ => false end.

(** Property read [v.k] on an arbitrary value; [None] is the TypeError
    raised on [undefined] and [null].  Primitives and arrays have none of
    the properties the code reads. *)
Definition get_prop (v : JsValue) (k : string) : option JsValue :=
  match v with
  | VUndefined | VNull => None
  | VObj o => Some (obj_read o k)
  | _ => Some VUndefined
  end.

(** Characters are code units below 256; the white space and line
    terminators of [String.prototype.trim] in that range. *)
Definition is_space (c : ascii) : bool :=
  let n := nat_of_ascii c in
  ((9 <=? n)%nat && (n <=? 13)%nat) || (n =? 32)%nat || (n =? 160)%nat.

Fixpoint trim_start (s : string) : string :=
  match s with
  | EmptyString => EmptyString
  | String c r => if is_space c then trim_start r else s
  end.

(** The end of a string is trimmed from the right: a character stays when
    something after it stays or when it is not white space. *)
Fixpoint trim_end (s : string) : string :=
  match s with
  | EmptyString => EmptyString
  | String c r =>
      match trim_end r with
      | EmptyString => if is_space c then EmptyString else String c EmptyString
      | r' => String c r'
      end
  end.

Definition trim (s : string) : string := trim_end (trim_start s).

(** Truthiness of a string: [!s] is [true] exactly on the empty string. *)
Definition str_truthy (s : string) : bool :=
  match s with EmptyString => false | _ => true end.

(** [s.includes(sub)]. *)
Fixpoint includes (s sub : string) : bool :=
  if String.prefix sub s then true
  else match s with
       | EmptyString => false
       | String _ r => includes r sub
       end.

(** Template-literal rendering of a non-negative integer. *)
Definition num_to_string (n : nat) : string :=
  NilEmpty.string_of_uint (Nat.to_uint n).

End Js.
Import Js.

(* ===================================================================== *)
(** ** Result shapes and [transformRawResults]                            *)
(* ===================================================================== *)

Record Meta : Type := mkMeta { rows_read : Z; rows_written : Z }.

(** [RawQueryResponse]. *)
Record RawQueryResponse : Type := mkRaw {
  columns : list string;
  rows : list (list JsValue);
  meta : Meta
}.

(** [QueryResponse = unknown[] | RawQueryResponse]; [OtherResp] stands for a
    backend answer of neither shape (for one, the [undefined] that
    [results?.items] yields). *)
Inductive QueryResponse : Type :=
| RawResp (r : RawQueryResponse)
| ObjResp (objs : list JsObject)
| OtherResp (v : JsValue).

(** A thrown value, as the catch blocks and the framework tell them apart:
    an instance of [Error] with its message, [undefined], [null], or another
    value with its [message] property, [None] when it has none. *)
Inductive Thrown : Type :=
| Error (msg : string)
| ThrownUndefined
| ThrownNull
| ThrownValue (message : option string).

Inductive Direction : Type := DirTo | DirFrom.

(** [result.columns.reduce((obj, column, index) => { obj[column] =
    row[index]; return obj }, {})], started at [index]. *)
Fixpoint reduce_columns (cols : list string) (index : nat)
  (row : list JsValue) (obj : JsObject) : JsObject :=
  match cols with
  | [] => obj
  | column :: cols' =>
      reduce_columns cols' (S index) row
        (obj_set obj column (nth index row VUndefined))
  end.

Definition row_to_object (cols : list string) (row : list JsValue) : JsObject :=
  reduce_columns cols 0 row [].

(** [transformRawResults(result, direction)].  A result of the wrong shape
    has no [rows] to map (direction "from") or no [map] method (direction
    "to"): a TypeError, and [undefined] and [null] have no properties to
    read at all. *)
Definition transformRawResults (result : QueryResponse) (direction : Direction)
  : Thrown + QueryResponse :=
  match direction with
  | DirFrom =>
      match result with
      | RawResp r => inr (ObjResp (map (row_to_object (columns r)) (rows r)))
      | OtherResp VUndefined =>
          inl (Error "Cannot read properties of undefined (reading 'rows')")
      | OtherResp VNull =>
          inl (Error "Cannot read properties of null (reading 'rows')")
      | _ =>
          inl (Error "Cannot read properties of undefined (reading 'map')")
      end
  | DirTo =>
      match result with
      | ObjResp objs =>
          let cols := obj_keys (hd [] objs) in
          let rws := map (fun row => map (fun col => obj_read row col) cols) objs in
          inr (RawResp (mkRaw cols rws
                          (mkMeta (Z.of_nat (length rws)) 0)))
      | OtherResp VUndefined =>
          inl (Error "Cannot read properties of undefined (reading '0')")
      | OtherResp VNull =>
          inl (Error "Cannot read properties of null (reading '0')")
      | _ => inl (Error "result.map is not a function")
      end
  end.

(* ===================================================================== *)
(** ** Configuration and data source                                      *)
(* ===================================================================== *)

Inductive Role : Type := Admin | Client.

(** [StarbaseDBConfiguration['features']]: every toggle is optional. *)
Record Features : Type := mkFeatures {
  allowlist : option bool;
  rls : option bool;
  rest : option bool;
  websocket : option bool;
  export : option bool;
  import : option bool
}.

Record StarbaseDBConfiguration : Type := mkConfig {
  outerbaseApiKey : option string;
  role : Role;
  features : option Features
}.

Inductive Source : Type := Internal | External.

(** The external connection descriptor of [./types]: the two properties the
    dispatch reads, and the remaining connection details kept as they are. *)
Record ExternalSource : Type := mkExternal {
  dialect : option string;
  provider : option string;
  details : JsObject
}.

(** [DataSource]; its [rpc] stub is the collaborator [rpc_executeQuery]. *)
Record DataSource : Type := mkDataSource {
  source : Source;
  external : option ExternalSource
}.

(** [{ sql, params }], one statement of a request. *)
Record Query : Type := mkQuery { q_sql : string; q_params : JsValue }.

(** What the hosted endpoint [https://app.outerbase.com/api/v1/ezql/raw]
    receives: the [X-Source-Token] header and the two fields of the JSON
    body. *)
Record HostedRequest : Type := mkHosted {
  h_token : string;
  h_query : string;
  h_params : JsValue
}.

(** The connection classes of the SDK that [executeSDKQuery] can open. *)
Inductive Adapter : Type :=
| PostgreSQLConnection
| MySQLConnection
| CloudflareD1Connection
| StarbaseConnection
| TursoConnection.

(** An argument whose static type the call site does not respect:
    [executeExternalQuery] reads properties off whatever it is handed. *)
Inductive Dyn : Type :=
| DynUndefined
| DynBool (b : bool)
| DynDataSource (ds : DataSource)
| DynConfig (c : StarbaseDBConfiguration).

(* ===================================================================== *)
(** ** Requests, responses and route targets                              *)
(* ===================================================================== *)

Inductive Method : Type := GET | POST | PUT | PATCH | DELETE | OPTIONS.

(** The parts of a [Request] the handler reads: the method, the path as the
    decoded segments between its slashes, the first slash apart
    (["/rest/users/1"] is [["rest"; "users"; "1"]], ["/query/"] is
    [["query"; ""]] and ["/"] is [[""]]), the [Content-Type] header, and
    what [request.json()] gives: the parsed body or the error it throws. *)
Record Request : Type := mkRequest {
  method : Method;
  path : list string;
  contentType : option string;
  json : Thrown + JsValue
}.

(** The [result] a response carries: one statement's result or the results
    of a batch. *)
Inductive ResultBody : Type :=
| SingleResult (r : QueryResponse)
| BatchResult (rs : list QueryResponse).

(** The response built by [createResponse(result, error, status)] of
    [./utils]: the status code and the two fields of its JSON body. *)
Record Response : Type := mkResponse {
  resp_status : Z;
  resp_result : option ResultBody;
  resp_error : option string
}.

Definition createResponse (result : option ResultBody) (error : option string)
  (status : Z) : Response :=
  mkResponse status result error.

(** The handlers of other modules that [handle] hands a request to, each
    with the arguments it is called with. *)
Inductive RouteTarget : Type :=
| LiteRESTHandleRequest (ds : DataSource) (cfg : StarbaseDBConfiguration)
    (req : Request)
| DumpDatabaseRoute (ds : DataSource) (cfg : StarbaseDBConfiguration)
| ExportTableToJsonRoute (tableName : string) (ds : DataSource)
    (cfg : StarbaseDBConfiguration)
| ExportTableToCsvRoute (tableName : string) (ds : DataSource)
    (cfg : StarbaseDBConfiguration)
| ImportDumpRoute (req : Request) (ds : DataSource)
    (cfg : StarbaseDBConfiguration)
| ImportTableFromJsonRoute (tableName : string) (req : Request)
    (ds : DataSource) (cfg : StarbaseDBConfiguration)
| ImportTableFromCsvRoute (tableName : string) (req : Request)
    (ds : DataSource) (cfg : StarbaseDBConfiguration)
| HandleApiRequest (req : Request).

(* ===================================================================== *)
(** ** Collaborators, events and the pipeline monad                       *)
(* ===================================================================== *)

(** What the pipeline does to its collaborators, in the order it does it. *)
Inductive Event : Type :=
| EvConsoleError (msg : string)
| EvConsoleErrorWith (label : string) (error : Thrown)
| EvConsoleWarn (msg : string)
| EvAllowlist (sql : string) (isEnabled : bool)
| EvRLS (sql : string) (isEnabled : bool)
| EvCacheLookup (sql : string) (params : JsValue)
| EvCacheStore (sql : string) (params : JsValue) (result : QueryResponse)
| EvRpc (sql : string) (params : JsValue) (isRaw : option bool)
| EvConnect (adapter : Adapter)
| EvSdkRaw (adapter : Adapter) (sql : string) (params : JsValue)
| EvFetch (request : HostedRequest)
| EvRoute (target : RouteTarget).

(** The modules the operation module imports and the services it calls.
    Each is a function of the collaborators' shared state [World] that may
    throw; none of them is part of the sources embedded here. *)
Class Collaborators : Type := {
  World : Type;
  (** [isQueryAllowed(sql, isEnabled, dataSource, config)] of [./allowlist] *)
  isQueryAllowed :
    string -> bool -> DataSource -> option StarbaseDBConfiguration ->
    World -> (Thrown + bool) * World;
  (** [applyRLS(sql, isEnabled, dialect, dataSource, config)] of [./rls] *)
  applyRLS :
    string -> bool -> option string -> DataSource ->
    option StarbaseDBConfiguration -> World -> (Thrown + string) * World;
  (** [beforeQueryCache({ sql, params, dataSource })] of [./cache];
      [None] is a falsy answer *)
  beforeQueryCache :
    string -> JsValue -> DataSource ->
    World -> (Thrown + option QueryResponse) * World;
  (** [afterQueryCache(sql, params, result, dataSource)] of [./cache] *)
  afterQueryCache :
    string -> JsValue -> QueryResponse -> DataSource ->
    World -> (Thrown + unit) * World;
  (** [dataSource.rpc.executeQuery({ sql, params, isRaw })] *)
  rpc_executeQuery :
    string -> JsValue -> option bool -> World -> (Thrown + QueryResponse) * World;
  (** [connection.connect()] of the SDK *)
  sdk_connect :
    Adapter -> ExternalSource -> World -> (Thrown + unit) * World;
  (** [connection.raw(sql, params)] of the SDK, projected on [data] *)
  sdk_raw :
    Adapter -> ExternalSource -> string -> JsValue ->
    World -> (Thrown + QueryResponse) * World;
  (** the POST to the hosted endpoint, its JSON answer projected on
      [response.results?.items] *)
  hosted_fetch :
    HostedRequest -> World -> (Thrown + QueryResponse) * World;
  (** the route handlers of the other modules: [LiteREST.handleRequest],
      the export and import routes, [handleApiRequest] *)
  route_handler : RouteTarget -> World -> (Thrown + Response) * World;
  (** [corsPreflight()] of [./cors] *)
  corsPreflight : Response
}.

Section Pipeline.

Context {C : Collaborators}.

(** The collaborators' state and the events so far, oldest first. *)
Record State : Type := mkState { world : World; trace : list Event }.

(** A computation that may throw and keeps its effects when it does. *)
Definition M (A : Type) : Type := State -> (Thrown + A) * State.

Definition ret {A : Type} (a : A) : M A := fun st => (inr a, st).

Definition throw {A : Type} (e : Thrown) : M A := fun st => (inl e, st).

Definition bind {A B : Type} (m : M A) (k : A -> M B) : M B :=
  fun st =>
    match m st with
    | (inl e, st') => (inl e, st')
    | (inr a, st') => k a st'
    end.

(** [try { m } catch (error) { h error }]. *)
Definition try_catch {A : Type} (m : M A) (h : Thrown -> M A) : M A :=
  fun st =>
    match m st with
    | (inl e, st') => h e st'
    | (inr a, st') => (inr a, st')
    end.

Definition log (ev : Event) : M unit :=
  fun st => (inr tt, mkState (world st) (trace st ++ [ev])).

(** A call to a collaborator: the event, then its effect on the world. *)
Definition call {A : Type} (ev : Event) (f : World -> (Thrown + A) * World)
  : M A :=
  fun st =>
    let (r, w') := f (world st) in
    (r, mkState w' (trace st ++ [ev])).

Definition lift {A : Type} (r : Thrown + A) : M A :=
  match r with inl e => throw e | inr a => ret a end.

End Pipeline.

Declare Scope pipeline_scope.
Delimit Scope pipeline_scope with pipeline.
Notation "x <- m ;; k" := (bind m (fun x => k))
  (at level 100, m at next level, right associativity) : pipeline_scope.
Notation "m ;; k" := (bind m (fun _ => k))
  (at level 100, right associativity) : pipeline_scope.
Local Open Scope pipeline_scope.

(* ===================================================================== *)
(** ** The operation module                                               *)
(* ===================================================================== *)

(** [sql.replace(/\?/g, () => `:param${paramIndex++}`)], the counter
    starting at [paramIndex]. *)
Fixpoint replace_placeholders (sql : string) (paramIndex : nat) : string :=
  match sql with
  | EmptyString => EmptyString
  | String c rest =>
      if Ascii.eqb c "?"
      then ":param" ++ num_to_string paramIndex
             ++ replace_placeholders rest (S paramIndex)
      else String c (replace_placeholders rest paramIndex)
  end.

(** [sql.replaceAll("\n", " ")]. *)
Fixpoint replace_newlines (sql : string) : string :=
  match sql with
  | EmptyString => EmptyString
  | String c rest =>
      String (if Ascii.eqb c "010" then " "%char else c) (replace_newlines rest)
  end.

(** [params.reduce((acc, value, index) => ({ ...acc, [`param${index}`]:
    value }), {})], continued from [index] with accumulator [acc]. *)
Fixpoint reduce_params (params : list JsValue) (index : nat) (acc : JsObject)
  : JsObject :=
  match params with
  | [] => acc
  | value :: rest =>
      reduce_params rest (S index)
        (obj_define acc ("param" ++ num_to_string index) value)
  end.

(** The conversion [executeExternalQuery] applies before it calls the hosted
    endpoint: the converted [params] and the rewritten [sql]. *)
Definition convert_params (sql : string) (params : JsValue)
  : JsValue * string :=
  match params with
  | VArr items => (VObj (reduce_params items 0 []), replace_placeholders sql 0)
  | _ => (params, sql)
  end.

(** [dataSource.external] read off a dynamically typed argument: [None] is
    the TypeError on [undefined]. *)
Definition dyn_external (d : Dyn) : option (option ExternalSource) :=
  match d with
  | DynUndefined => None
  | DynDataSource ds => Some (external ds)
  | DynBool _ | DynConfig _ => Some None
  end.

(** [config?.outerbaseApiKey]. *)
Definition dyn_apiKey (d : Dyn) : option string :=
  match d with
  | DynConfig c => outerbaseApiKey c
  | _ => None
  end.

Definition opt_truthy (s : option string) : bool :=
  match s with Some k => str_truthy k | None => false end.

(** The chain of conditionals of [executeSDKQuery]. *)
Definition select_adapter (ext : ExternalSource) : option Adapter :=
  match dialect ext with
  | Some "postgres" => Some PostgreSQLConnection
  | Some "mysql" => Some MySQLConnection
  | _ =>
      match provider ext with
      | Some "cloudflare-d1" => Some CloudflareD1Connection
      | Some "starbase" => Some StarbaseConnection
      | Some "turso" => Some TursoConnection
      | _ => None
      end
  end.

Definition TypeError (msg : string) : Thrown := Error msg.

(** [throw new Error(error.message ?? "An error occurred")] in a catch block
    that caught [e]; on [undefined] and [null] the read of [message] itself
    throws. *)
Definition rethrow (e : Thrown) : Thrown :=
  match e with
  | Error msg => Error msg
  | ThrownUndefined =>
      TypeError "Cannot read properties of undefined (reading 'message')"
  | ThrownNull =>
      TypeError "Cannot read properties of null (reading 'message')"
  | ThrownValue (Some msg) => Error msg
  | ThrownValue None => Error "An error occurred"
  end.

Section Operation.

Context {C : Collaborators}.

(** [beforeQuery]: the pre-query hook is empty. *)
Definition beforeQuery (sql : string) (params : JsValue)
  (dataSource : option DataSource) (config : option StarbaseDBConfiguration)
  : M (string * JsValue) :=
  ret (sql, params).

(** [afterQuery]: the post-query hook is empty, and in raw mode the result
    goes through both directions of the transformer. *)
Definition afterQuery (sql : string) (result : QueryResponse) (isRaw : bool)
  (dataSource : option DataSource) (config : option StarbaseDBConfiguration)
  : M QueryResponse :=
  result <- (if isRaw then lift (transformRawResults result DirFrom)
             else ret result) ;;
  if isRaw then lift (transformRawResults result DirTo) else ret result.

(** [executeSDKQuery(opts)]. *)
Definition executeSDKQuery (sql : string) (params : JsValue)
  (dataSource : Dyn) (config : Dyn) : M QueryResponse :=
  match dyn_external dataSource with
  | None =>
      throw (TypeError "Cannot read properties of undefined (reading 'external')")
  | Some None =>
      log (EvConsoleWarn "No external connection found") ;;
      ret (ObjResp [])
  | Some (Some ext) =>
      match select_adapter ext with
      | None => throw (Error "Unsupported external database type")
      | Some connection =>
          call (EvConnect connection) (sdk_connect connection ext) ;;
          call (EvSdkRaw connection sql params) (sdk_raw connection ext sql params)
      end
  end.

(** [executeExternalQuery(sql, params, dataSource, config)]. *)
Definition executeExternalQuery (sql : string) (params : JsValue)
  (dataSource : Dyn) (config : Dyn) : M QueryResponse :=
  match dyn_external dataSource with
  | None =>
      throw (TypeError "Cannot read properties of undefined (reading 'external')")
  | Some None => throw (Error "External connection not found.")
  | Some (Some _) =>
      if negb (opt_truthy (dyn_apiKey config))
      then executeSDKQuery sql params dataSource config
      else
        let (convertedParams, sql) := convert_params sql params in
        let request :=
          mkHosted (match dyn_apiKey config with Some k => k | None => "" end)
                   (replace_newlines sql) convertedParams in
        call (EvFetch request) (hosted_fetch request)
  end.

(** [config?.features?.allowlist ?? false] and its [rls] twin. *)
Definition feature_flag (config : option StarbaseDBConfiguration)
  (key : Features -> option bool) (defaultValue : bool) : bool :=
  match config with
  | Some c =>
      match features c with
      | Some f => match key f with Some b => b | None => defaultValue end
      | None => defaultValue
      end
  | None => defaultValue
  end.

(** [dataSource.external?.dialect]. *)
Definition external_dialect (ds : DataSource) : option string :=
  match external ds with Some ext => dialect ext | None => None end.

(** [executeQuery(sql, params, isRaw, dataSource, config)].  The external
    branch hands five arguments to the four parameters of
    [executeExternalQuery]: [isRaw] lands on [dataSource], the data source
    on [config], and the configuration is dropped. *)
Definition executeQuery (sql : string) (params : JsValue) (isRaw : bool)
  (dataSource : option DataSource) (config : option StarbaseDBConfiguration)
  : M QueryResponse :=
  match dataSource with
  | None =>
      log (EvConsoleError "Data source not found.") ;;
      ret (ObjResp [])
  | Some ds =>
      try_catch
        (let allow := feature_flag config allowlist false in
         call (EvAllowlist sql allow) (isQueryAllowed sql allow ds config) ;;
         let enabled := feature_flag config rls false in
         sql <- call (EvRLS sql enabled)
                  (applyRLS sql enabled (external_dialect ds) ds config) ;;
         updated <- beforeQuery sql params (Some ds) config ;;
         let (updatedSQL, updatedParams) := updated in
         cache <- (if negb isRaw
                   then call (EvCacheLookup updatedSQL updatedParams)
                          (beforeQueryCache updatedSQL updatedParams ds)
                   else ret None) ;;
         match cache with
         | Some cached => ret cached
         | None =>
             response <-
               (match source ds with
                | Internal =>
                    call (EvRpc updatedSQL updatedParams (Some isRaw))
                      (rpc_executeQuery updatedSQL updatedParams (Some isRaw))
                | External =>
                    executeExternalQuery updatedSQL updatedParams
                      (DynBool isRaw) (DynDataSource ds)
                end) ;;
             (if negb isRaw
              then call (EvCacheStore sql updatedParams response)
                     (afterQueryCache sql updatedParams response ds)
              else ret tt) ;;
             afterQuery updatedSQL response isRaw (Some ds) config
         end)
        (fun error => throw (rethrow error))
  end.

(** The loop of [executeTransaction]: [results] holds what was pushed so
    far. *)
Fixpoint run_queries (queries : list Query) (isRaw : bool)
  (dataSource : option DataSource) (config : option StarbaseDBConfiguration)
  (results : list QueryResponse) : M (list QueryResponse) :=
  match queries with
  | [] => ret results
  | query :: rest =>
      result <- executeQuery (q_sql query) (q_params query) isRaw
                  dataSource config ;;
      run_queries rest isRaw dataSource config (results ++ [result])
  end.

(** [executeTransaction(queries, isRaw, dataSource, config)]. *)
Definition executeTransaction (queries : list Query) (isRaw : bool)
  (dataSource : option DataSource) (config : option StarbaseDBConfiguration)
  : M (list QueryResponse) :=
  match dataSource with
  | None =>
      log (EvConsoleError "Data source not found.") ;;
      ret []
  | Some _ => run_queries queries isRaw dataSource config []
  end.

End Operation.

(* ===================================================================== *)
(** ** The handler: [StarbaseDB]                                          *)
(* ===================================================================== *)

Definition quote : string := String "034"%char EmptyString.

Definition method_eqb (a b : Method) : bool :=
  match a, b with
  | GET, GET | POST, POST | PUT, PUT | PATCH, PATCH
  | DELETE, DELETE | OPTIONS, OPTIONS => true
  | _, _ => false
  end.

(** The gateway instance: the two private fields the routes read.  Plugins
    register routes of their own through the plugin registry; the instance
    modelled here is constructed without any, [options.plugins || []]. *)
Record StarbaseDB : Type := mkStarbaseDB {
  dataSource : DataSource;
  config : StarbaseDBConfiguration
}.

(** The constructor. *)
Definition new_StarbaseDB (ds : DataSource) (cfg : StarbaseDBConfiguration)
  : Thrown + StarbaseDB :=
  match source ds, external ds with
  | External, None => inl (Error "No external data sources available.")
  | _, _ => inr (mkStarbaseDB ds cfg)
  end.

(** [getFeature(key, defaultValue = true)]:
    [this.config.features?.[key] ?? !!defaultValue]. *)
Definition getFeature (this : StarbaseDB) (key : Features -> option bool)
  (defaultValue : bool) : bool :=
  match features (config this) with
  | Some f => match key f with Some b => b | None => defaultValue end
  | None => defaultValue
  end.

(** The check both branches of [queryRoute] apply to [sql]:
    [typeof sql !== 'string' || !sql.trim()]. *)
Definition invalid_sql (sql : JsValue) : bool :=
  match sql with
  | VStr s => negb (str_truthy (trim s))
  | _ => true
  end.

(** [params !== undefined && !Array.isArray(params) && typeof params !==
    'object']. *)
Definition invalid_params (params : JsValue) : bool :=
  match params with
  | VUndefined => false
  | _ => negb (isArray params) && negb (is_object_type (typeof params))
  end.

Definition sql_text (sql : JsValue) : string :=
  match sql with VStr s => s | _ => "" end.

(** The callback of [transaction.map] in [queryRoute]. *)
Definition validate_query (queryObj : JsValue) : Thrown + Query :=
  match get_prop queryObj "sql", get_prop queryObj "params" with
  | Some sql, Some params =>
      if invalid_sql sql then
        inl (Error ("Invalid or empty " ++ quote ++ "sql" ++ quote
                    ++ " field in transaction."))
      else if invalid_params params then
        inl (Error ("Invalid " ++ quote ++ "params" ++ quote
                    ++ " field in transaction. Must be an array or object."))
      else inr (mkQuery (sql_text sql) params)
  | _, _ =>
      inl (TypeError
             (match queryObj with
              | VNull =>
                  "Cannot destructure property 'sql' of 'queryObj' as it is null."
              | _ =>
                  "Cannot destructure property 'sql' of 'queryObj' as it is undefined."
              end))
  end.

(** [transaction.map(...)]: the elements in order, stopping at the first
    that throws. *)
Fixpoint validate_transaction (transaction : list JsValue)
  : Thrown + list Query :=
  match transaction with
  | [] => inr []
  | queryObj :: rest =>
      match validate_query queryObj with
      | inl e => inl e
      | inr q =>
          match validate_transaction rest with
          | inl e => inl e
          | inr qs => inr (q :: qs)
          end
      end
  end.

(** [error?.message || 'An unexpected error occurred.']. *)
Definition error_message (e : Thrown) : string :=
  match e with
  | Error m | ThrownValue (Some m) =>
      if str_truthy m then m else "An unexpected error occurred."
  | _ => "An unexpected error occurred."
  end.

(** The path patterns of the route table. *)
Inductive Pattern : Type :=
| PAll                          (* '*' *)
| PExact (segs : list string)   (* '/query/raw' *)
| PUnder (segs : list string)   (* '/rest/*' *)
| PParam (segs : list string).  (* '/export/json/:tableName' *)

Inductive Middleware : Type := IsInternalSource | HasTableName.

Inductive Handler : Type :=
| HCorsPreflight
| HQueryRoute (isRaw : bool)
| HLiteREST
| HDumpDatabase
| HExportJson
| HExportCsv
| HImportDump
| HImportJson
| HImportCsv
| HApi.

(** One registration [app.METHOD(path, ...middleware, handler)];
    [r_method = None] is [app.all]. *)
Record Route : Type := mkRoute {
  r_method : option Method;
  r_pattern : Pattern;
  r_middleware : list Middleware;
  r_handler : Handler
}.

Fixpoint segs_eqb (a b : list string) : bool :=
  match a, b with
  | [], [] => true
  | x :: a', y :: b' => String.eqb x y && segs_eqb a' b'
  | _, _ => false
  end.

Fixpoint segs_prefix (pre p : list string) : bool :=
  match pre, p with
  | [], _ => true
  | x :: pre', y :: p' => String.eqb x y && segs_prefix pre' p'
  | _ :: _, [] => false
  end.

(** [match_pattern pat p] is [None] when the path does not match, and
    otherwise the value bound to [:tableName], if the pattern has one; a
    parameter matches one segment that is not empty. *)
Fixpoint match_pattern_param (segs p : list string) : option string :=
  match segs, p with
  | [], [t] => if str_truthy t then Some t else None
  | x :: segs', y :: p' =>
      if String.eqb x y then match_pattern_param segs' p' else None
  | _, _ => None
  end.

Definition match_pattern (pat : Pattern) (p : list string)
  : option (option string) :=
  match pat with
  | PAll => Some None
  | PExact segs => if segs_eqb segs p then Some None else None
  | PUnder segs => if segs_prefix segs p then Some None else None
  | PParam segs =>
      match match_pattern_param segs p with
      | Some t => Some (Some t)
      | None => None
      end
  end.

Definition match_method (m : option Method) (req : Request) : bool :=
  match m with
  | None => true
  | Some m' => method_eqb m' (method req)
  end.

(** The routes [handle] registers, in registration order. *)
Definition routes (this : StarbaseDB) : list Route :=
  [ mkRoute (Some OPTIONS) PAll [] HCorsPreflight;
    mkRoute (Some POST) (PExact ["query"; "raw"]) [] (HQueryRoute true);
    mkRoute (Some POST) (PExact ["query"]) [] (HQueryRoute false) ]
  ++ (if getFeature this rest true
      then [ mkRoute None (PUnder ["rest"]) [] HLiteREST ]
      else [])
  ++ (if getFeature this export true
      then [ mkRoute (Some GET) (PExact ["export"; "dump"])
               [IsInternalSource] HDumpDatabase;
             mkRoute (Some GET) (PParam ["export"; "json"])
               [IsInternalSource; HasTableName] HExportJson;
             mkRoute (Some GET) (PParam ["export"; "csv"])
               [IsInternalSource; HasTableName] HExportCsv ]
      else [])
  ++ (if getFeature this import true
      then [ mkRoute (Some POST) (PExact ["import"; "dump"])
               [IsInternalSource] HImportDump;
             mkRoute (Some POST) (PParam ["import"; "json"])
               [IsInternalSource; HasTableName] HImportJson;
             mkRoute (Some POST) (PParam ["import"; "csv"])
               [IsInternalSource; HasTableName] HImportCsv ]
      else [])
  ++ [ mkRoute None (PUnder ["api"]) [] HApi ].

(** The middleware of a route, in order: a response ends the request, and
    otherwise the validated [tableName] (if any) reaches the handler. *)
Fixpoint run_middleware (this : StarbaseDB) (mws : list Middleware)
  (param : option string) (valid : option string) : Response + option string :=
  match mws with
  | [] => inr valid
  | IsInternalSource :: rest =>
      match source (dataSource this) with
      | Internal => run_middleware this rest param valid
      | External =>
          inl (createResponse None
                 (Some "Function is only available for internal data source.")
                 400)
      end
  | HasTableName :: rest =>
      let tableName := trim (match param with Some t => t | None => "" end) in
      if negb (str_truthy tableName)
      then inl (createResponse None (Some "Table name is required") 400)
      else run_middleware this rest param (Some tableName)
  end.

Definition cleanupSQL : string :=
  "DELETE FROM tmp_cache WHERE timestamp + (ttl * 1000) < ?".

(** The callback given to [app.onError]. *)
Definition onError (error : Thrown) : Response :=
  createResponse None (Some (error_message error)) 500.

(** The application object [app] of the module, one for all the gateway
    instances and all the requests: the routes registered so far, each with
    the instance whose [handle] registered it (its handlers read
    [this.dataSource] and [this.config]), and whether the router has already
    matched a request.  Once it has, the router of the framework refuses
    every further registration. *)
Record App : Type := mkApp {
  app_routes : list (StarbaseDB * Route);
  app_built : bool
}.

(** The application as the module creates it, [new Hono()]. *)
Definition fresh_app : App := mkApp [] false.

(** The message of the error the router throws on a registration after its
    first match. *)
Definition matcher_already_built : string :=
  "Can not add a route since the matcher is already built.".

(** The application after a call of [handle] by [this] that got to
    [app.fetch]. *)
Definition served (this : StarbaseDB) (app : App) : App :=
  mkApp (app_routes app ++ map (pair this) (routes this)) true.

Section Handler.

Context {C : Collaborators}.

(** [queryRoute(request, isRaw)].  Both operations are called with one
    argument, an options object ([{ sql, params, isRaw, dataSource, config }]
    and [{ queries, isRaw, dataSource, config }]), while the operation module
    declares positional parameters: the object is bound to the first
    parameter, and [isRaw], [dataSource] and [config] are [undefined].  The
    guard on [dataSource] returns before the first parameter is read; the
    statements and the statement text stand in that place here. *)
Definition queryRoute (this : StarbaseDB) (request : Request) (isRaw : bool)
  : M Response :=
  try_catch
    (let contentType :=
       match contentType request with Some h => h | None => "" end in
     if negb (includes contentType "application/json")
     then ret (createResponse None
                 (Some "Content-Type must be application/json.") 400)
     else
       body <- lift (json request) ;;
       match get_prop body "sql", get_prop body "params",
             get_prop body "transaction" with
       | Some sql, Some params, Some transaction =>
           match transaction with
           | VArr (queryObj :: more) =>
               queries <- lift (validate_transaction (queryObj :: more)) ;;
               response <- executeTransaction queries false None None ;;
               ret (createResponse (Some (BatchResult response)) None 200)
           | _ =>
               if invalid_sql sql then
                 ret (createResponse None
                        (Some ("Invalid or empty " ++ quote ++ "sql" ++ quote
                               ++ " field.")%string)
                        400)
               else if invalid_params params then
                 ret (createResponse None
                        (Some ("Invalid " ++ quote ++ "params" ++ quote
                               ++ " field. Must be an array or object.")%string)
                        400)
               else
                 response <- executeQuery (sql_text sql) VUndefined false
                               None None ;;
                 ret (createResponse (Some (SingleResult response)) None 200)
           end
       | _, _, _ =>
           throw (TypeError
                    (match body with
                     | VNull =>
                         "Cannot destructure property 'sql' of '(intermediate value)' as it is null."
                     | _ =>
                         "Cannot destructure property 'sql' of '(intermediate value)' as it is undefined."
                     end))
       end)
    (fun error =>
       log (EvConsoleErrorWith "Query Route Error:" error) ;;
       ret (createResponse None (Some (error_message error)) 500)).

(** [expireCache()]: the clean-up statement is sent and not awaited; what it
    returns or rejects with reaches nobody. *)
Definition expireCache (this : StarbaseDB) (now : Z) : M unit :=
  fun st =>
    let params := VArr [VNum now] in
    let (_, w') := rpc_executeQuery cleanupSQL params None (world st) in
    (inr tt, mkState w' (trace st ++ [EvRpc cleanupSQL params None])).

Definition delegate (target : RouteTarget) : M Response :=
  call (EvRoute target) (route_handler target).

(** The final handler of a route, after its middleware let the request
    through with the validated [tableName]. *)
Definition run_handler (this : StarbaseDB) (h : Handler) (request : Request)
  (tableName : string) : M Response :=
  let ds := dataSource this in
  let cfg := config this in
  match h with
  | HCorsPreflight => ret corsPreflight
  | HQueryRoute isRaw => queryRoute this request isRaw
  | HLiteREST => delegate (LiteRESTHandleRequest ds cfg request)
  | HDumpDatabase => delegate (DumpDatabaseRoute ds cfg)
  | HExportJson => delegate (ExportTableToJsonRoute tableName ds cfg)
  | HExportCsv => delegate (ExportTableToCsvRoute tableName ds cfg)
  | HImportDump => delegate (ImportDumpRoute request ds cfg)
  | HImportJson => delegate (ImportTableFromJsonRoute tableName request ds cfg)
  | HImportCsv => delegate (ImportTableFromCsvRoute tableName request ds cfg)
  | HApi => delegate (HandleApiRequest request)
  end.

(** The routing of [app.fetch(request)]: the first registered route whose
    method and path match answers, with the instance that registered it;
    without one, the [notFound] handler does. *)
Fixpoint dispatch (table : list (StarbaseDB * Route)) (request : Request)
  : M Response :=
  match table with
  | [] => ret (createResponse None (Some "Not found") 404)
  | (this, r) :: rest =>
      if match_method (r_method r) request then
        match match_pattern (r_pattern r) (path request) with
        | Some param =>
            match run_middleware this (r_middleware r) param None with
            | inl response => ret response
            | inr valid =>
                run_handler this (r_handler r) request
                  (match valid with Some t => t | None => "" end)
            end
        | None => dispatch rest request
        end
      else dispatch rest request
  end.

(** What the framework does with a value a handler throws: an instance of
    [Error] goes to the [onError] callback, anything else is thrown on. *)
Definition handleError (m : M Response) : M Response :=
  try_catch m
    (fun error =>
       match error with
       | Error _ => ret (onError error)
       | _ => throw error
       end).

(** [handle(request, ctx)], [now] being what [Date.now()] reads.  Its first
    statement registers on the application of the module; when the router
    has matched a request before, that registration throws and nothing else
    of [handle] runs. *)
Definition handle (this : StarbaseDB) (request : Request) (now : Z)
  (app : App)
  : State -> (Thrown + Response) * State * App :=
  fun st =>
    if app_built app
    then (inl (Error matcher_already_built), st, app)
    else
      ((expireCache this now ;;
        handleError (dispatch (app_routes (served this app)) request))
         st,
       served this app).

End Handler.

(* ===================================================================== *)
(** ** Definitions the statements below are phrased with                  *)
(* ===================================================================== *)

(** The rewrite of the placeholders as the specification words it: the
    character at position [i] of the statement, when it is a [?], becomes
    [:paramN] with [N] the number of [?] before position [i]; any other
    character stays. *)
Fixpoint count_marks (s : string) : nat :=
  match s with
  | EmptyString => 0
  | String c rest => (if Ascii.eqb c "?" then 1 else 0) + count_marks rest
  end.

Definition spec_piece (sql : string) (i : nat) : string :=
  match String.get i sql with
  | Some c =>
      if Ascii.eqb c "?"
      then ":param" ++ num_to_string (count_marks (String.substring 0 i sql))
      else String c EmptyString
  | None => EmptyString
  end.

Definition spec_named_sql (sql : string) : string :=
  String.concat "" (map (spec_piece sql) (seq 0 (String.length sql))).

(** The key [`param${i}`]. *)
Definition param_key (i : nat) : string := ("param" ++ num_to_string i)%string.

(** The mapping [{param0: v0, param1: v1, ...}] of the specification. *)
Definition spec_param_mapping (vs : list JsValue) : JsObject :=
  combine (map (fun i => ("param" ++ num_to_string i)%string)
             (seq 0 (length vs))) vs.

(** Newlines collapsed to spaces, character by character. *)
Definition spec_collapse_newlines (sql : string) : string :=
  string_of_list_ascii
    (map (fun c => if Ascii.eqb c "010" then " "%char else c)
       (list_ascii_of_string sql)).

(** All the rows of an object result have the same keys. *)
Definition same_keys (objs : list JsObject) : Prop :=
  forall o1 o2, In o1 objs -> In o2 objs -> obj_keys o1 = obj_keys o2.

(** A column name that [obj[column] = value] turns into an own property
    listed after the properties created before it: not ["__proto__"], not an
    array index. *)
Definition plain_column (c : string) : Prop :=
  c <> "__proto__" /\ array_index c = None.

(** The round trip through the transformer, "from" and then "to", changes
    the columns or the rows of [r] although the rows it passes through all
    have the same keys. *)
Definition roundtrip_fails (r : RawQueryResponse) : Prop :=
  exists objs r',
    transformRawResults (RawResp r) DirFrom = inr (ObjResp objs) /\
    same_keys objs /\
    transformRawResults (ObjResp objs) DirTo = inr (RawResp r') /\
    (columns r' <> columns r \/ rows r' <> rows r).

(** A POST to [/query] that declares JSON, with the body
    [{ transaction: [...] }] and with the body [{ sql, params }]. *)
Definition transaction_request (transaction : list JsValue) : Request :=
  mkRequest POST ["query"] (Some "application/json")
    (inr (VObj [("transaction", VArr transaction)])).

Definition single_request (sql params : JsValue) : Request :=
  mkRequest POST ["query"] (Some "application/json")
    (inr (VObj [("sql", sql); ("params", params)])).

(** A statement that passes the checks of [queryRoute]. *)
Definition valid_query (q : Query) : Prop :=
  invalid_sql (VStr (q_sql q)) = false /\ invalid_params (q_params q) = false.

(** The handlers of the export and import routes. *)
Definition export_or_import (h : Handler) : bool :=
  match h with
  | HDumpDatabase | HExportJson | HExportCsv
  | HImportDump | HImportJson | HImportCsv => true
  | _ => false
  end.

(** The answer of the [isInternalSource] middleware on an external source. *)
Definition internal_only : Response :=
  createResponse None
    (Some "Function is only available for internal data source.") 400.

Section Statements.

Context {C : Collaborators}.

(** [st'] has every event of [st], in the same order, and possibly more
    after them. *)
Definition extends (st st' : State) : Prop :=
  exists evs, trace st' = trace st ++ evs.

Definition monotone {A : Type} (m : M A) : Prop :=
  forall st r st', m st = (r, st') -> extends st st'.

(** The state after one more event that leaves the collaborators alone. *)
Definition logged (st : State) (ev : Event) : State :=
  mkState (world st) (trace st ++ [ev]).

End Statements.

Section BatchRun.

Context {C : Collaborators}.
Variables (isRaw : bool) (ds : DataSource)
          (cfg : option StarbaseDBConfiguration).

(** The statements of a list run one after the other, each a call of
    [executeQuery] that returns, each starting in the state its predecessor
    left. *)
Inductive batch_run : list Query -> State -> list QueryResponse -> State -> Prop :=
| batch_done : forall st, batch_run [] st [] st
| batch_step : forall q qs st r st1 rs st2,
    executeQuery (q_sql q) (q_params q) isRaw (Some ds) cfg st = (inr r, st1) ->
    batch_run qs st1 rs st2 ->
    batch_run (q :: qs) st (r :: rs) st2.

End BatchRun.

(* ===================================================================== *)
(** ** A concrete set of collaborators, to run the pipeline on examples   *)
(* ===================================================================== *)

Module Sample.

(** The statements the backend has executed, oldest first, and the cache
    entries, newest first. *)
Record SampleWorld : Type := mkWorld {
  executed : list string;
  cached : list (string * QueryResponse)
}.

Fixpoint cache_find (entries : list (string * QueryResponse)) (sql : string)
  : option QueryResponse :=
  match entries with
  | [] => None
  | (k, r) :: rest => if String.eqb k sql then Some r else cache_find rest sql
  end.

Definition one_row (isRaw : option bool) : QueryResponse :=
  match isRaw with
  | Some true => RawResp (mkRaw ["ok"] [[VNum 1]] (mkMeta 1 0))
  | _ => ObjResp [[("ok", VNum 1)]]
  end.

(** The backend records every statement it is handed and fails on a
    division by zero. *)
Definition backend (sql : string) (isRaw : option bool) (w : SampleWorld)
  : (Thrown + QueryResponse) * SampleWorld :=
  let w' := mkWorld (executed w ++ [sql]) (cached w) in
  if includes sql "1/0" then (inl (Error "division by zero"), w')
  else (inr (one_row isRaw), w').

#[export] Instance collaborators : Collaborators := {|
  World := SampleWorld;
  isQueryAllowed := fun sql isEnabled _ _ w =>
    if isEnabled && includes sql "secrets"
    then (inl (Error "Query not allowed"), w)
    else (inr true, w);
  applyRLS := fun sql isEnabled _ _ _ w =>
    if isEnabled then (inr (sql ++ " WHERE user_id = 1")%string, w)
    else (inr sql, w);
  beforeQueryCache := fun sql _ _ w => (inr (cache_find (cached w) sql), w);
  afterQueryCache := fun sql _ result _ w =>
    (inr tt, mkWorld (executed w) ((sql, result) :: cached w));
  rpc_executeQuery := fun sql _ isRaw w => backend sql isRaw w;
  sdk_connect := fun _ _ w => (inr tt, w);
  sdk_raw := fun _ _ sql _ w => backend sql (Some true) w;
  hosted_fetch := fun request w => backend (h_query request) None w;
  route_handler := fun _ w => (inr (createResponse None None 200), w);
  corsPreflight := createResponse None None 204
|}.

Definition state (w : SampleWorld) (evs : list Event) : State :=
  @mkState collaborators w evs.

Definition start : State := state (mkWorld [] []) [].

Definition internal : DataSource := mkDataSource Internal None.

Definition remote : DataSource :=
  mkDataSource External (Some (mkExternal (Some "postgres") None [])).

Definition plain : StarbaseDBConfiguration := mkConfig None Admin None.

Definition with_rls : StarbaseDBConfiguration :=
  mkConfig None Client
    (Some (mkFeatures None (Some true) None None None None)).

Definition with_allowlist : StarbaseDBConfiguration :=
  mkConfig None Client
    (Some (mkFeatures (Some true) None None None None None)).

Definition hosted : StarbaseDBConfiguration :=
  mkConfig (Some "secret-token") Admin None.

End Sample.

(* ===================================================================== *)
(** ** Definitions for the properties of the rest of the two modules      *)
(* ===================================================================== *)

(** The keys of an object after [obj_define], computed from its keys alone. *)
Fixpoint keys_insert_index (i : N) (k : string) (ks : list string)
  : list string :=
  match ks with
  | [] => [k]
  | k' :: rest =>
      match array_index k' with
      | Some j =>
          if (j <? i)%N then k' :: keys_insert_index i k rest else k :: ks
      | None => k :: ks
      end
  end.

Definition keys_define (ks : list string) (k : string) : list string :=
  if existsb (fun k' => String.eqb k' k) ks then ks
  else match array_index k with
       | Some i => keys_insert_index i k ks
       | None => ks ++ [k]
       end.

Definition keys_set (ks : list string) (k : string) : list string :=
  if String.eqb k "__proto__" then ks else keys_define ks k.

(** The keys of the row object built from [cols], whatever the row is. *)
Fixpoint keys_of_columns (cols : list string) (ks : list string)
  : list string :=
  match cols with
  | [] => ks
  | column :: cols' => keys_of_columns cols' (keys_set ks column)
  end.

(** The position of the last occurrence of [c] in [cols]. *)
Fixpoint last_index (c : string) (cols : list string) : option nat :=
  match cols with
  | [] => None
  | x :: rest =>
      match last_index c rest with
      | Some i => Some (S i)
      | None => if String.eqb x c then Some 0 else None
      end
  end.

(** Every character of [s] is white space for [trim]. *)
Fixpoint all_space (s : string) : bool :=
  match s with
  | EmptyString => true
  | String c rest => is_space c && all_space rest
  end.

Fixpoint count_newlines (s : string) : nat :=
  match s with
  | EmptyString => 0
  | String c rest => (if Ascii.eqb c "010" then 1 else 0) + count_newlines rest
  end.

(** Kinds of events. *)
Definition cache_event (ev : Event) : Prop :=
  match ev with
  | EvCacheLookup _ _ | EvCacheStore _ _ _ => True
  | _ => False
  end.

Definition external_event (ev : Event) : Prop :=
  match ev with
  | EvConnect _ | EvSdkRaw _ _ _ | EvFetch _ => True
  | _ => False
  end.

Definition backend_event (ev : Event) : Prop :=
  match ev with
  | EvRpc _ _ _ | EvConnect _ | EvSdkRaw _ _ _ | EvFetch _ => True
  | _ => False
  end.

(** A raw result as [afterQuery] hands it out in raw mode. *)
Definition rebuilt_raw (raw : RawQueryResponse) : Prop :=
  rows_written (meta raw) = 0%Z /\
  rows_read (meta raw) = Z.of_nat (length (rows raw)) /\
  NoDup (columns raw) /\
  Forall (fun row => length row = length (columns raw)) (rows raw).

(** The three shapes of an answer of [queryRoute]. *)
Definition well_formed_response (response : Response) : Prop :=
  (resp_status response = 200%Z /\ resp_error response = None /\
   resp_result response <> None)
  \/ ((resp_status response = 400%Z \/ resp_status response = 500%Z) /\
      resp_result response = None /\
      exists msg, resp_error response = Some msg /\ msg <> "").

(** The statement [q] is what the checks of a batch make of the element
    [item]. *)
Definition element_of (item : JsValue) (q : Query) : Prop :=
  get_prop item "sql" = Some (VStr (q_sql q))
  /\ get_prop item "params" = Some (q_params q)
  /\ valid_query q.

(** The answer of the [hasTableName] validator to a blank table name. *)
Definition table_name_required : Response :=
  createResponse None (Some "Table name is required") 400.

(** What a route with a [:tableName] parameter does on an internal source
    once the path matched: the validator, then the handler [target] of the
    other module with the trimmed name. *)
Definition with_table_name {C : Collaborators}
  (t : string) (target : string -> RouteTarget) : M Response :=
  if str_truthy (trim t)
  then handleError (delegate (target (trim t)))
  else ret table_name_required.

Definition not_found : Response := createResponse None (Some "Not found") 404.

(** The messages written to the console. *)
Definition console_event (ev : Event) : Prop :=
  match ev with
  | EvConsoleError _ | EvConsoleErrorWith _ _ | EvConsoleWarn _ => True
  | _ => False
  end.

(** A second set of collaborators, for the edge cases: the engine answers
    every statement with a result without rows (in raw mode with its
    columns and a count of written rows), and the cache cannot be written. *)
Module Edge.

Definition engine (isRaw : option bool) : QueryResponse :=
  match isRaw with
  | Some true => RawResp (mkRaw ["id"; "name"] [] (mkMeta 0 3))
  | _ => ObjResp []
  end.

#[export] Instance collaborators : Collaborators := {|
  World := list string;
  isQueryAllowed := fun _ _ _ _ w => (inr true, w);
  applyRLS := fun sql _ _ _ _ w => (inr sql, w);
  beforeQueryCache := fun _ _ _ w => (inr None, w);
  afterQueryCache := fun _ _ _ _ w => (inl (Error "cache unavailable"), w);
  rpc_executeQuery := fun sql _ isRaw w => (inr (engine isRaw), w ++ [sql]);
  sdk_connect := fun _ _ w => (inl (Error "connection refused"), w);
  sdk_raw := fun _ _ sql _ w => (inr (engine (Some true)), w ++ [sql]);
  hosted_fetch := fun request w => (inr (engine None), w ++ [h_query request]);
  route_handler := fun _ w => (inl (Error "route failed"), w);
  corsPreflight := createResponse None None 204
|}.

Definition state (w : list string) (evs : list Event) : State :=
  @mkState collaborators w evs.

Definition start : State := state [] [].

End Edge.

Section Emits.

Context {C : Collaborators}.

(** Whatever [m] does, the events it adds all satisfy [P]. *)
Definition emits {A : Type} (P : Event -> Prop) (m : M A) : Prop :=
  forall st r st',
    m st = (r, st') ->
    exists evs, trace st' = trace st ++ evs /\ Forall P evs.

(** The dispatch step of [executeQuery] on the statement [applyRLS]
    returned. *)
Definition dispatch_query (ds : DataSource) (sql : string) (params : JsValue)
  (isRaw : bool) : M QueryResponse :=
  match source ds with
  | Internal =>
      call (EvRpc sql params (Some isRaw))
        (rpc_executeQuery sql params (Some isRaw))
  | External =>
      executeExternalQuery sql params (DynBool isRaw) (DynDataSource ds)
  end.

End Emits.

(* ===================================================================== *)
(** ** Properties of the result shape transformer                         *)
(* ===================================================================== *)

Module TransformerFacts.

Lemma obj_has_false (o : JsObject) (k : string) :
  ~ In k (obj_keys o) -> obj_has o k = false.
Proof.
  induction o as [| [k' v'] o IH]; simpl; intros Hk; [reflexivity |].
  destruct (String.eqb_spec k' k) as [-> | _].
  - exfalso. apply Hk. now left.
  - apply IH. intros Hin. apply Hk. now right.
Qed.

Lemma obj_set_fresh (o : JsObject) (k : string) (v : JsValue) :
  plain_column k -> ~ In k (obj_keys o) -> obj_set o k v = o ++ [(k, v)].
Proof.
  intros [Hproto Hidx] Hfresh. unfold obj_set.
  destruct (String.eqb_spec k "__proto__") as [E | _]; [contradiction |].
  unfold obj_define. now rewrite (obj_has_false _ _ Hfresh), Hidx.
Qed.

Lemma obj_keys_app (o1 o2 : JsObject) :
  obj_keys (o1 ++ o2) = obj_keys o1 ++ obj_keys o2.
Proof. unfold obj_keys. apply map_app. Qed.

(** With fresh, distinct, plain columns the reduction appends one property
    per column, in column order. *)
Lemma reduce_columns_fresh (cols : list string) :
  forall (index : nat) (row : list JsValue) (obj : JsObject),
    NoDup cols ->
    Forall plain_column cols ->
    (forall c, In c cols -> ~ In c (obj_keys obj)) ->
    reduce_columns cols index row obj
    = obj ++ combine cols
               (map (fun i => nth i row VUndefined) (seq index (length cols))).
Proof.
  induction cols as [| c cols IH]; intros index row obj Hnd Hplain Hfresh; simpl.
  - now rewrite app_nil_r.
  - inversion Hnd as [| ? ? Hnotin Hnd']; subst.
    inversion Hplain as [| ? ? Hc Hplain']; subst.
    rewrite obj_set_fresh by (auto; apply Hfresh; now left).
    rewrite IH; auto.
    + now rewrite <- app_assoc.
    + intros c' Hin. rewrite obj_keys_app. simpl. intros Hin'.
      apply in_app_or in Hin'. destruct Hin' as [Hin' | [-> | []]].
      * apply (Hfresh c'); [now right | exact Hin'].
      * contradiction.
Qed.

Lemma map_nth_seq (row : list JsValue) :
  map (fun i => nth i row VUndefined) (seq 0 (length row)) = row.
Proof.
  induction row as [| v row IH]; simpl; [reflexivity |].
  rewrite <- seq_shift, map_map. simpl. now rewrite IH.
Qed.

Lemma row_to_object_zip (cols : list string) (row : list JsValue) :
  NoDup cols -> Forall plain_column cols -> length row = length cols ->
  row_to_object cols row = combine cols row.
Proof.
  intros Hnd Hplain Hlen. unfold row_to_object.
  rewrite reduce_columns_fresh by (auto; intros c _ []).
  simpl. now rewrite <- Hlen, map_nth_seq.
Qed.

Lemma obj_keys_combine (cols : list string) :
  forall row, length row = length cols -> obj_keys (combine cols row) = cols.
Proof.
  induction cols as [| c cols IH]; intros [| v row] Hlen; simpl in *;
    try discriminate; [reflexivity |].
  f_equal. apply IH. now injection Hlen.
Qed.

Lemma obj_has_in (o : JsObject) (k : string) :
  In k (obj_keys o) -> obj_has o k = true.
Proof.
  induction o as [| [k' v'] o IH]; simpl; intros Hk; [contradiction |].
  destruct (String.eqb_spec k' k) as [_ | Hne]; [reflexivity |].
  destruct Hk as [Hk | Hk]; [contradiction | now apply IH].
Qed.

Lemma obj_read_own (o : JsObject) (k : string) :
  In k (obj_keys o) -> obj_read o k = obj_get o k.
Proof. intros Hk. unfold obj_read. now rewrite obj_has_in. Qed.

Lemma obj_read_absent (o : JsObject) (k : string) :
  ~ In k (obj_keys o) -> obj_read o k = inherited k.
Proof. intros Hk. unfold obj_read. now rewrite obj_has_false. Qed.

(** In an object that has every key once, the own property is the value the
    key is paired with. *)
Lemma obj_get_in (o : JsObject) (k : string) (v : JsValue) :
  NoDup (obj_keys o) -> In (k, v) o -> obj_get o k = v.
Proof.
  induction o as [| [k' v'] o IH]; simpl; intros Hnd Hin; [contradiction |].
  inversion Hnd as [| ? ? Hnotin Hnd']; subst.
  destruct Hin as [Heq | Hin].
  - injection Heq as -> ->. now rewrite String.eqb_refl.
  - destruct (String.eqb_spec k' k) as [-> | _]; [| now apply IH].
    exfalso. apply Hnotin. change k with (fst (k, v)). now apply in_map.
Qed.

Lemma project_combine (cols : list string) :
  forall row, NoDup cols -> length row = length cols ->
    map (fun col => obj_read (combine cols row) col) cols = row.
Proof.
  intros row Hnd Hlen.
  transitivity (map (fun col => obj_get (combine cols row) col) cols).
  { apply map_ext_in. intros col Hin. apply obj_read_own.
    now rewrite obj_keys_combine. }
  revert row Hnd Hlen.
  induction cols as [| c cols IH]; intros [| v row] Hnd Hlen; simpl in *;
    try discriminate; [reflexivity |].
  inversion Hnd as [| ? ? Hnotin Hnd']; subst.
  rewrite String.eqb_refl. f_equal.
  transitivity (map (fun col => obj_get (combine cols row) col) cols).
  - apply map_ext_in. intros col Hin.
    destruct (String.eqb_spec c col) as [-> | _]; [contradiction | reflexivity].
  - apply IH; [exact Hnd' | now injection Hlen].
Qed.

(** C9.  The object-to-raw direction, for row objects that have each of
    their keys once: the columns are the keys of the first row, in their
    order (none when there is no row); there is one output row per row
    object, with one cell per column; the cell of a column is the value the
    row object pairs with that column, and for a column the row object lacks
    it is what the object inherits under that name; [rows_read] is the
    number of rows and [rows_written] is 0. *)
Theorem object_to_raw_shape (objs : list JsObject) :
  Forall (fun row => NoDup (map fst row)) objs ->
  exists r,
    transformRawResults (ObjResp objs) DirTo = inr (RawResp r) /\
    columns r = match objs with
                | [] => []
                | first :: _ => map fst first
                end /\
    length (rows r) = length objs /\
    (forall i row, nth_error objs i = Some row ->
       exists cells,
         nth_error (rows r) i = Some cells /\
         length cells = length (columns r) /\
         forall j c, nth_error (columns r) j = Some c ->
           exists cell,
             nth_error cells j = Some cell /\
             (forall v, In (c, v) row -> cell = v) /\
             (~ In c (map fst row) -> cell = inherited c)) /\
    rows_read (meta r) = Z.of_nat (length objs) /\
    rows_written (meta r) = 0%Z.
Proof.
  intros Hobjs. eexists. split; [reflexivity |]. cbn [columns rows meta
    rows_read rows_written].
  split; [now destruct objs |].
  split; [apply length_map |].
  split; [| split; [now rewrite length_map | reflexivity]].
  intros i row Hrow. eexists. split; [now rewrite nth_error_map, Hrow |].
  split; [apply length_map |].
  intros j c Hc. eexists. split; [now rewrite nth_error_map, Hc |].
  assert (Hnd : NoDup (obj_keys row)).
  { rewrite Forall_forall in Hobjs. apply Hobjs.
    now apply nth_error_In with i. }
  split.
  - intros v Hin. rewrite obj_read_own.
    + now apply obj_get_in.
    + change c with (fst (c, v)). now apply in_map.
  - intros Hnot. now apply obj_read_absent.
Qed.

Lemma object_to_raw_shape_witness :
  let objs :=
    [[("id", VNum 1); ("toString", VStr "a")]; [("id", VNum 2)]] in
  exists r,
    transformRawResults (ObjResp objs) DirTo = inr (RawResp r) /\
    columns r = ["id"; "toString"] /\
    length (rows r) = 2%nat /\
    (forall i row, nth_error objs i = Some row ->
       exists cells,
         nth_error (rows r) i = Some cells /\
         length cells = length (columns r) /\
         forall j c, nth_error (columns r) j = Some c ->
           exists cell,
             nth_error cells j = Some cell /\
             (forall v, In (c, v) row -> cell = v) /\
             (~ In c (map fst row) -> cell = inherited c)) /\
    rows_read (meta r) = 2%Z /\
    rows_written (meta r) = 0%Z.
Proof.
  intros objs.
  apply (object_to_raw_shape objs).
  repeat constructor; simpl; intuition discriminate.
Defined.

(** C8, as amended.  When the raw result has at least one row, its column
    names are distinct plain names and every row has one value per column,
    converting it to row objects and back gives its columns and its rows
    again; all the row objects in between have the same keys. *)
Theorem raw_roundtrip (r : RawQueryResponse) :
  rows r <> [] ->
  NoDup (columns r) ->
  Forall plain_column (columns r) ->
  Forall (fun row => length row = length (columns r)) (rows r) ->
  exists objs r',
    transformRawResults (RawResp r) DirFrom = inr (ObjResp objs) /\
    same_keys objs /\
    transformRawResults (ObjResp objs) DirTo = inr (RawResp r') /\
    columns r' = columns r /\
    rows r' = rows r.
Proof.
  intros Hrows Hnd Hplain Hlen.
  assert (Hobjs : map (row_to_object (columns r)) (rows r)
                  = map (combine (columns r)) (rows r)).
  { apply map_ext_in. intros row Hin. apply row_to_object_zip; auto.
    rewrite Forall_forall in Hlen. now apply Hlen. }
  assert (Hkeys : forall o, In o (map (combine (columns r)) (rows r)) ->
                            obj_keys o = columns r).
  { intros o Hin. apply in_map_iff in Hin. destruct Hin as [row [<- Hin]].
    apply obj_keys_combine. rewrite Forall_forall in Hlen. now apply Hlen. }
  eexists. eexists. split; [reflexivity |]. simpl. rewrite Hobjs.
  split; [| split; [reflexivity | simpl]].
  - intros o1 o2 H1 H2. now rewrite (Hkeys o1 H1), (Hkeys o2 H2).
  - assert (Hhd : obj_keys (hd [] (map (combine (columns r)) (rows r)))
                  = columns r).
    { destruct (rows r) as [| row rest] eqn:E; [contradiction |].
      simpl. apply Hkeys. now left. }
    rewrite Hhd. split; [reflexivity |].
    rewrite map_map. rewrite <- (map_id (rows r)) at 2.
    apply map_ext_in. intros row Hin. apply project_combine; auto.
    rewrite Forall_forall in Hlen. now apply Hlen.
Qed.

Lemma raw_roundtrip_witness :
  exists objs r',
    transformRawResults
      (RawResp (mkRaw ["id"; "name"] [[VNum 1; VStr "a"]; [VNum 2; VNull]]
                  (mkMeta 2 0))) DirFrom = inr (ObjResp objs) /\
    same_keys objs /\
    transformRawResults (ObjResp objs) DirTo = inr (RawResp r') /\
    columns r' = ["id"; "name"] /\
    rows r' = [[VNum 1; VStr "a"]; [VNum 2; VNull]].
Proof.
  apply (raw_roundtrip
           (mkRaw ["id"; "name"] [[VNum 1; VStr "a"]; [VNum 2; VNull]]
              (mkMeta 2 0))); simpl.
  - discriminate.
  - repeat constructor; simpl; intuition discriminate.
  - repeat constructor; discriminate.
  - repeat constructor.
Defined.

Ltac same_keys_by_cases :=
  intros o1 o2 H1 H2; simpl in H1, H2;
  repeat match goal with
         | H : _ \/ _ |- _ => destruct H
         | H : False |- _ => destruct H
         end; subst; reflexivity.

Ltac roundtrip_breaks :=
  eexists; eexists;
  split; [reflexivity |];
  split; [same_keys_by_cases |];
  split; [reflexivity |];
  simpl; (left; discriminate) || (right; discriminate).

(** C8, the claim as stated, fails: the rows between the two conversions
    always share their keys, and still the round trip loses the columns of a
    result without rows, merges two columns of one name, moves an
    array-index column to the front, drops a ["__proto__"] column, pads a
    short row and cuts a long one. *)
Lemma raw_roundtrip_counterexample :
  roundtrip_fails (mkRaw ["a"] [] (mkMeta 0 0)) /\
  roundtrip_fails (mkRaw ["a"; "a"] [[VNum 1; VNum 2]] (mkMeta 1 0)) /\
  roundtrip_fails (mkRaw ["b"; "1"] [[VNum 10; VNum 20]] (mkMeta 1 0)) /\
  roundtrip_fails (mkRaw ["__proto__"; "a"] [[VNum 1; VNum 2]] (mkMeta 1 0)) /\
  roundtrip_fails (mkRaw ["a"; "b"] [[VNum 1]] (mkMeta 1 0)) /\
  roundtrip_fails (mkRaw ["a"] [[VNum 1; VNum 2]] (mkMeta 1 0)).
Proof.
  repeat split; roundtrip_breaks.
Qed.

End TransformerFacts.

(* ===================================================================== *)
(** ** Properties of the operation module                                 *)
(* ===================================================================== *)

Module OperationFacts.

Section WithCollaborators.

Context {C : Collaborators}.

(** *** Events are only ever appended *)

Lemma extends_refl st : extends st st.
Proof. exists []. now rewrite app_nil_r. Qed.

Lemma extends_trans st1 st2 st3 :
  extends st1 st2 -> extends st2 st3 -> extends st1 st3.
Proof.
  intros [e1 H1] [e2 H2]. exists (e1 ++ e2). now rewrite H2, H1, app_assoc.
Qed.

Lemma monotone_ret {A} (a : A) : monotone (ret a).
Proof. intros st r st' H. injection H as _ <-. apply extends_refl. Qed.

Lemma monotone_throw {A} (e : Thrown) : monotone (@throw _ A e).
Proof. intros st r st' H. injection H as _ <-. apply extends_refl. Qed.

Lemma monotone_lift {A} (r : Thrown + A) : monotone (lift r).
Proof. destruct r; [apply monotone_throw | apply monotone_ret]. Qed.

Lemma monotone_log ev : monotone (log ev).
Proof. intros st r st' H. injection H as _ <-. now exists [ev]. Qed.

Lemma monotone_call {A} ev (f : World -> (Thrown + A) * World) :
  monotone (call ev f).
Proof.
  intros st r st' H. unfold call in H. destruct (f (world st)) as [r0 w'].
  injection H as _ <-. now exists [ev].
Qed.

Lemma monotone_bind {A B} (m : M A) (k : A -> M B) :
  monotone m -> (forall a, monotone (k a)) -> monotone (bind m k).
Proof.
  intros Hm Hk st r st' H. unfold bind in H.
  destruct (m st) as [[e | a] st1] eqn:E.
  - injection H as _ <-. eapply Hm, E.
  - eapply extends_trans; [eapply Hm, E | eapply Hk, H].
Qed.

Lemma monotone_try_catch {A} (m : M A) (h : Thrown -> M A) :
  monotone m -> (forall e, monotone (h e)) -> monotone (try_catch m h).
Proof.
  intros Hm Hh st r st' H. unfold try_catch in H.
  destruct (m st) as [[e | a] st1] eqn:E.
  - eapply extends_trans; [eapply Hm, E | eapply Hh, H].
  - injection H as _ <-. eapply Hm, E.
Qed.

Create HintDb monotone.

Hint Resolve monotone_ret monotone_throw monotone_lift monotone_log
  monotone_call monotone_bind monotone_try_catch : monotone.

Lemma monotone_executeSDKQuery sql params d cfg :
  monotone (executeSDKQuery sql params d cfg).
Proof.
  unfold executeSDKQuery.
  destruct (dyn_external d) as [[ext |] |]; auto with monotone.
  destruct (select_adapter ext); auto with monotone.
Qed.

Lemma monotone_executeExternalQuery sql params d cfg :
  monotone (executeExternalQuery sql params d cfg).
Proof.
  unfold executeExternalQuery.
  destruct (dyn_external d) as [[ext |] |]; auto with monotone.
  destruct (negb (opt_truthy (dyn_apiKey cfg))).
  - apply monotone_executeSDKQuery.
  - destruct (convert_params sql params). auto with monotone.
Qed.

Lemma monotone_afterQuery sql r isRaw ds cfg :
  monotone (afterQuery sql r isRaw ds cfg).
Proof.
  unfold afterQuery. apply monotone_bind.
  - destruct isRaw; auto with monotone.
  - intros a. destruct isRaw; auto with monotone.
Qed.

Lemma monotone_executeQuery sql params isRaw ds cfg :
  monotone (executeQuery sql params isRaw ds cfg).
Proof.
  unfold executeQuery. destruct ds as [ds |]; [| auto with monotone].
  apply monotone_try_catch; [| auto with monotone].
  apply monotone_bind; [auto with monotone | intros _].
  apply monotone_bind; [auto with monotone | intros sql'].
  apply monotone_bind; [unfold beforeQuery; auto with monotone | intros [s p]].
  apply monotone_bind; [destruct isRaw; simpl; auto with monotone | intros [c |]].
  - auto with monotone.
  - apply monotone_bind; [| intros response].
    + destruct (source ds);
        [auto with monotone | apply monotone_executeExternalQuery].
    + apply monotone_bind; [destruct isRaw; simpl; auto with monotone | intros _].
      apply monotone_afterQuery.
Qed.

Lemma batch_run_extends isRaw ds cfg qs st rs st' :
  batch_run isRaw ds cfg qs st rs st' -> extends st st'.
Proof.
  induction 1 as [| q qs st r st1 rs st2 Hq _ IH].
  - apply extends_refl.
  - eapply extends_trans; [eapply monotone_executeQuery, Hq | exact IH].
Qed.

(** *** The loop of [executeTransaction] *)

Lemma run_queries_ok isRaw ds cfg qs st rs st' :
  batch_run isRaw ds cfg qs st rs st' ->
  forall acc,
    run_queries qs isRaw (Some ds) cfg acc st = (inr (acc ++ rs), st').
Proof.
  induction 1 as [| q qs st r st1 rs st2 Hq _ IH]; intros acc;
    cbn [run_queries].
  - now rewrite app_nil_r.
  - unfold bind. rewrite Hq, IH. now rewrite <- app_assoc.
Qed.

Lemma run_queries_abort isRaw ds cfg pre st rs st1 :
  batch_run isRaw ds cfg pre st rs st1 ->
  forall q post e st2 acc,
    executeQuery (q_sql q) (q_params q) isRaw (Some ds) cfg st1 = (inl e, st2) ->
    run_queries (pre ++ q :: post) isRaw (Some ds) cfg acc st = (inl e, st2).
Proof.
  induction 1 as [| q0 qs st r st1 rs st2 Hq0 _ IH];
    intros q post e st3 acc Hq; cbn [run_queries app]; unfold bind.
  - now rewrite Hq.
  - rewrite Hq0. now apply IH.
Qed.

(** *** The dispatch of an external data source *)

Lemma executeExternalQuery_shifted sql params isRaw d st :
  executeExternalQuery sql params (DynBool isRaw) d st
  = (inl (Error "External connection not found."), st).
Proof. reflexivity. Qed.

End WithCollaborators.

(** C10.  Without a data source, [executeQuery] returns the empty array and
    [executeTransaction] does too: nothing is thrown, the collaborators'
    state is untouched and the only event is the line on the error console,
    so that no allowlist check, RLS rewrite, cache access or backend call
    takes place. *)
Theorem absent_data_source_returns_empty {C : Collaborators}
  (sql : string) (params : JsValue) (queries : list Query) (isRaw : bool)
  (cfg : option StarbaseDBConfiguration) (st : State) :
  executeQuery sql params isRaw None cfg st
  = (inr (ObjResp []),
     mkState (world st) (trace st ++ [EvConsoleError "Data source not found."]))
  /\ executeTransaction queries isRaw None cfg st
     = (inr [],
        mkState (world st) (trace st ++ [EvConsoleError "Data source not found."])).
Proof. split; reflexivity. Qed.

(** C6.  On an external data source, a call of [executeQuery] that gets as
    far as the dispatch (the allowlist check and the RLS rewrite return, and
    in object mode the cache has no entry) throws "External connection not
    found.", whatever the external connection descriptor is: the dispatch
    hands [isRaw] to the [dataSource] parameter of [executeExternalQuery].
    No connection is opened and nothing is fetched. *)
Theorem external_dispatch_fails {C : Collaborators}
  (sql : string) (params : JsValue) (isRaw : bool) (ds : DataSource)
  (cfg : option StarbaseDBConfiguration) (st : State)
  (b : bool) (w1 : World) (sql' : string) (w2 w3 : World) :
  source ds = External ->
  isQueryAllowed sql (feature_flag cfg allowlist false) ds cfg (world st)
  = (inr b, w1) ->
  applyRLS sql (feature_flag cfg rls false) (external_dialect ds) ds cfg w1
  = (inr sql', w2) ->
  (if isRaw then w3 = w2
   else beforeQueryCache sql' params ds w2 = (inr None, w3)) ->
  executeQuery sql params isRaw (Some ds) cfg st
  = (inl (Error "External connection not found."),
     mkState w3
       (trace st
        ++ [EvAllowlist sql (feature_flag cfg allowlist false);
            EvRLS sql (feature_flag cfg rls false)]
        ++ (if isRaw then [] else [EvCacheLookup sql' params]))).
Proof.
  intros Hsrc Hallow Hrls Hcache.
  unfold executeQuery, try_catch, bind, call, beforeQuery, ret. simpl.
  rewrite Hallow. simpl. rewrite Hrls. simpl.
  destruct isRaw; simpl.
  - subst w3. rewrite Hsrc. rewrite executeExternalQuery_shifted.
    unfold throw, rethrow. simpl. now rewrite <- app_assoc.
  - rewrite Hcache. simpl. rewrite Hsrc, executeExternalQuery_shifted.
    unfold throw, rethrow. simpl. now rewrite <- !app_assoc.
Qed.

Lemma external_dispatch_fails_witness :
  executeQuery "SELECT 1" VUndefined false (Some Sample.remote)
    (Some Sample.hosted) Sample.start
  = (inl (Error "External connection not found."),
     Sample.state (Sample.mkWorld [] [])
       ([] ++ [EvAllowlist "SELECT 1" false; EvRLS "SELECT 1" false]
           ++ [EvCacheLookup "SELECT 1" VUndefined])).
Proof.
  apply (external_dispatch_fails (C := Sample.collaborators)
           "SELECT 1" VUndefined false Sample.remote (Some Sample.hosted)
           Sample.start true (Sample.mkWorld [] []) "SELECT 1"
           (Sample.mkWorld [] []) (Sample.mkWorld [] []));
    reflexivity.
Defined.

(** C2, at the failing input.  With the RLS feature on, the statement that
    [applyRLS] rewrote is looked up in the cache and its result is written to
    the cache, both under the rewritten text; a second identical call is then
    answered by that cache entry, without a call to the backend. *)
Theorem rls_modified_query_is_cached :
  let run :=
    executeQuery "SELECT * FROM t" VUndefined false (Some Sample.internal)
      (Some Sample.with_rls) in
  let rewritten := "SELECT * FROM t WHERE user_id = 1" in
  let answer := ObjResp [[("ok", VNum 1)]] in
  let st1 :=
    Sample.state (Sample.mkWorld [rewritten] [(rewritten, answer)])
      [EvAllowlist "SELECT * FROM t" false;
       EvRLS "SELECT * FROM t" true;
       EvCacheLookup rewritten VUndefined;
       EvRpc rewritten VUndefined (Some false);
       EvCacheStore rewritten VUndefined answer] in
  applyRLS "SELECT * FROM t" true None Sample.internal (Some Sample.with_rls)
    (world Sample.start)
  = (inr rewritten, world Sample.start)
  /\ rewritten <> "SELECT * FROM t"
  /\ run Sample.start = (inr answer, st1)
  /\ Sample.cache_find (Sample.cached (world st1)) rewritten = Some answer
  /\ run st1
     = (inr answer,
        Sample.state (world st1)
          (trace st1 ++ [EvAllowlist "SELECT * FROM t" false;
                         EvRLS "SELECT * FROM t" true;
                         EvCacheLookup rewritten VUndefined])).
Proof.
  cbv zeta. repeat split; try reflexivity. discriminate.
Qed.

(** Whatever the collaborators are: in object mode the cache is consulted
    with the text [applyRLS] returned, rewritten or not. *)
Lemma cache_lookup_ignores_rls {C : Collaborators}
  (sql : string) (params : JsValue) (ds : DataSource)
  (cfg : option StarbaseDBConfiguration) (st : State)
  (b : bool) (w1 : World) (sql' : string) (w2 : World) :
  isQueryAllowed sql (feature_flag cfg allowlist false) ds cfg (world st)
  = (inr b, w1) ->
  applyRLS sql (feature_flag cfg rls false) (external_dialect ds) ds cfg w1
  = (inr sql', w2) ->
  exists evs,
    trace (snd (executeQuery sql params false (Some ds) cfg st))
    = trace st
      ++ [EvAllowlist sql (feature_flag cfg allowlist false);
          EvRLS sql (feature_flag cfg rls false);
          EvCacheLookup sql' params]
      ++ evs.
Proof.
  intros Hallow Hrls.
  unfold executeQuery, try_catch.
  unfold bind at 1. unfold call at 1. rewrite Hallow.
  unfold bind at 1. unfold call at 1. cbn [world trace]. rewrite Hrls.
  unfold bind at 1. unfold beforeQuery, ret at 1. cbn [negb].
  unfold bind at 1. unfold call at 1. cbn [world trace].
  destruct (beforeQueryCache sql' params ds w2) as [[e | [c |]] w3] eqn:Hc.
  - unfold throw. cbn. exists []. now rewrite <- !app_assoc.
  - cbn. exists []. now rewrite <- !app_assoc.
  - match goal with
    | |- context [bind ?m ?k ?s] =>
        assert (Hmono : monotone (bind m k)); [|
          destruct (bind m k s) as [r st'] eqn:E;
          destruct (Hmono _ _ _ E) as [evs Hevs] ]
    end.
    + apply monotone_bind; [| intros response].
      * destruct (source ds);
          [auto using monotone_call | apply monotone_executeExternalQuery].
      * apply monotone_bind; [apply monotone_call | intros _].
        apply monotone_afterQuery.
    + exists evs. destruct r; cbn; rewrite Hevs; cbn;
        now rewrite <- !app_assoc.
Qed.

(** *** The rewrite for the hosted endpoint *)

Lemma concat_empty_cons (x : string) (xs : list string) :
  String.concat "" (x :: xs) = (x ++ String.concat "" xs)%string.
Proof.
  destruct xs as [| y ys]; [| reflexivity].
  simpl. induction x as [| c x IH]; simpl; [reflexivity | now rewrite <- IH].
Qed.

Lemma append_assoc (a b c : string) :
  ((a ++ b) ++ c = a ++ (b ++ c))%string.
Proof. induction a as [| x a IH]; simpl; [reflexivity | now rewrite IH]. Qed.

Lemma get_after_prefix (pre : string) (c : ascii) (rest : string) :
  String.get (String.length pre) (pre ++ String c rest) = Some c.
Proof. induction pre as [| x pre IH]; simpl; auto. Qed.

Lemma substring_prefix (pre rest : string) :
  String.substring 0 (String.length pre) (pre ++ rest) = pre.
Proof.
  induction pre as [| x pre IH]; simpl.
  - now destruct rest.
  - now rewrite IH.
Qed.

Lemma count_marks_snoc (pre : string) (c : ascii) :
  count_marks (pre ++ String c EmptyString)
  = count_marks pre + (if Ascii.eqb c "?" then 1 else 0).
Proof.
  induction pre as [| x pre IH]; simpl; [lia |]. rewrite IH. lia.
Qed.

Lemma length_snoc (pre : string) (c : ascii) :
  String.length (pre ++ String c EmptyString) = S (String.length pre).
Proof. induction pre as [| x pre IH]; simpl; congruence. Qed.

(** The counter of the replacement callback is the number of placeholders
    already passed. *)
Lemma replace_placeholders_pieces (s : string) :
  forall pre,
    replace_placeholders s (count_marks pre)
    = String.concat ""
        (map (spec_piece (pre ++ s))
           (seq (String.length pre) (String.length s))).
Proof.
  induction s as [| c rest IH]; intros pre; [reflexivity |].
  cbn [String.length seq map]. rewrite concat_empty_cons.
  specialize (IH (pre ++ String c EmptyString)%string).
  rewrite append_assoc, length_snoc, count_marks_snoc in IH.
  cbn [append] in IH. rewrite <- IH.
  unfold spec_piece at 1. rewrite get_after_prefix, substring_prefix.
  cbn [replace_placeholders].
  destruct (Ascii.eqb c "?").
  - rewrite Nat.add_1_r. now rewrite !append_assoc.
  - now rewrite Nat.add_0_r.
Qed.

Lemma replace_placeholders_spec (sql : string) :
  replace_placeholders sql 0 = spec_named_sql sql.
Proof. exact (replace_placeholders_pieces sql EmptyString). Qed.

Lemma replace_newlines_spec (sql : string) :
  replace_newlines sql = spec_collapse_newlines sql.
Proof.
  unfold spec_collapse_newlines.
  induction sql as [| c rest IH]; simpl; [reflexivity | now rewrite IH].
Qed.

Lemma param_key_inj (i j : nat) : param_key i = param_key j -> i = j.
Proof.
  unfold param_key, num_to_string. simpl. intros H.
  injection H as H.
  apply DecimalNat.Unsigned.to_uint_inj.
  assert (Hs : Some (Nat.to_uint i) = Some (Nat.to_uint j))
    by (rewrite <- !NilEmpty.usu; now rewrite H).
  now injection Hs.
Qed.

Lemma param_key_plain (i : nat) : array_index (param_key i) = None.
Proof. reflexivity. Qed.

(** The reduction over [params] appends one property per value: the keys
    are new each time. *)
Lemma reduce_params_appends (vs : list JsValue) :
  forall (index : nat) (acc : JsObject),
    (forall k, In k (obj_keys acc) -> exists j, j < index /\ k = param_key j) ->
    reduce_params vs index acc
    = acc ++ combine (map param_key (seq index (length vs))) vs.
Proof.
  induction vs as [| v vs IH]; intros index acc Hacc;
    cbn [reduce_params length seq map combine].
  - now rewrite app_nil_r.
  - change ("param" ++ num_to_string index)%string with (param_key index).
    assert (Hfresh : ~ In (param_key index) (obj_keys acc)).
    { intros Hin. destruct (Hacc _ Hin) as [j [Hlt Heq]].
      apply param_key_inj in Heq. lia. }
    unfold obj_define.
    rewrite (TransformerFacts.obj_has_false _ _ Hfresh), param_key_plain.
    rewrite IH.
    + now rewrite <- app_assoc.
    + intros k Hin. rewrite TransformerFacts.obj_keys_app in Hin.
      apply in_app_or in Hin. destruct Hin as [Hin | [<- | []]].
      * destruct (Hacc _ Hin) as [j [Hlt Heq]]. exists j. split; [lia | easy].
      * exists index. split; [lia | reflexivity].
Qed.

Lemma reduce_params_spec (vs : list JsValue) :
  reduce_params vs 0 [] = spec_param_mapping vs.
Proof.
  rewrite reduce_params_appends by (intros k []). reflexivity.
Qed.

(** C3.  With a hosted credential configured and an external connection
    present, [executeExternalQuery] posts to the hosted endpoint, and what it
    posts is: for array [params], the statement with its [?] replaced in
    source order by [:param0], [:param1], ... and the mapping [{param0: v0,
    param1: v1, ...}]; for any other [params], the statement and the
    [params] as they are; in both cases with every newline of the statement
    turned into a space.  The example of the specification is sent as
    stated. *)
Theorem hosted_proxy_rewrite {C : Collaborators}
  (sql : string) (ds : DataSource) (ext : ExternalSource)
  (cfg : StarbaseDBConfiguration) (key : string) (st : State) :
  external ds = Some ext ->
  outerbaseApiKey cfg = Some key ->
  key <> "" ->
  let send request := call (EvFetch request) (hosted_fetch request) st in
  (forall vs,
      executeExternalQuery sql (VArr vs) (DynDataSource ds) (DynConfig cfg) st
      = send (mkHosted key (spec_collapse_newlines (spec_named_sql sql))
                (VObj (spec_param_mapping vs))))
  /\ (forall params,
        isArray params = false ->
        executeExternalQuery sql params (DynDataSource ds) (DynConfig cfg) st
        = send (mkHosted key (spec_collapse_newlines sql) params))
  /\ executeExternalQuery "SELECT * FROM t WHERE a=? AND b=?"
       (VArr [VNum 1; VStr "x"]) (DynDataSource ds) (DynConfig cfg) st
     = send (mkHosted key "SELECT * FROM t WHERE a=:param0 AND b=:param1"
               (VObj [("param0", VNum 1); ("param1", VStr "x")])).
Proof.
  intros Hext Hkey Hne send.
  assert (Htruthy : negb (opt_truthy (dyn_apiKey (DynConfig cfg))) = false).
  { simpl. rewrite Hkey. simpl. destruct key; [contradiction | reflexivity]. }
  assert (Hstep : forall s params,
             executeExternalQuery s params (DynDataSource ds) (DynConfig cfg) st
             = send (mkHosted key
                       (replace_newlines (snd (convert_params s params)))
                       (fst (convert_params s params)))).
  { intros s params. unfold executeExternalQuery.
    cbn [dyn_external]. rewrite Hext, Htruthy.
    destruct (convert_params s params) as [p s'].
    cbn [dyn_apiKey fst snd]. now rewrite Hkey. }
  repeat split.
  - intros vs. rewrite Hstep. cbn [convert_params fst snd].
    now rewrite replace_placeholders_spec, replace_newlines_spec,
      reduce_params_spec.
  - intros params Harr. rewrite Hstep.
    destruct params; try discriminate; cbn [convert_params fst snd];
      now rewrite replace_newlines_spec.
  - rewrite Hstep. reflexivity.
Qed.

Lemma hosted_proxy_rewrite_witness :
  executeExternalQuery ("SELECT a" ++ String "010" "FROM t WHERE b=?")
    (VArr [VNum 7]) (DynDataSource Sample.remote) (DynConfig Sample.hosted)
    Sample.start
  = call (EvFetch (mkHosted "secret-token" "SELECT a FROM t WHERE b=:param0"
                     (VObj [("param0", VNum 7)])))
      (hosted_fetch (mkHosted "secret-token" "SELECT a FROM t WHERE b=:param0"
                       (VObj [("param0", VNum 7)])))
      Sample.start.
Proof.
  refine (proj1 (hosted_proxy_rewrite (C := Sample.collaborators)
                   ("SELECT a" ++ String "010" "FROM t WHERE b=?")
                   Sample.remote
                   (mkExternal (Some "postgres") None []) Sample.hosted
                   "secret-token" Sample.start _ _ _) [VNum 7]).
  - reflexivity.
  - reflexivity.
  - discriminate.
Defined.



End OperationFacts.

(* ===================================================================== *)
(** ** Properties of the handler                                          *)
(* ===================================================================== *)

Module HandlerFacts.

Section WithCollaborators.

Context {C : Collaborators}.

(** *** [queryRoute] *)

Lemma queryRoute_not_json this req isRaw st :
  includes (match contentType req with Some h => h | None => "" end)
    "application/json" = false ->
  queryRoute this req isRaw st
  = (inr (createResponse None
            (Some "Content-Type must be application/json.") 400), st).
Proof. intros H. unfold queryRoute, try_catch. now rewrite H. Qed.

(** A batch with an element that fails the checks: the error is thrown
    inside the [try] block, and the [catch] block answers. *)
Lemma queryRoute_batch_invalid this item items isRaw st e :
  validate_transaction (item :: items) = inl e ->
  queryRoute this (transaction_request (item :: items)) isRaw st
  = (inr (createResponse None (Some (error_message e)) 500),
     logged st (EvConsoleErrorWith "Query Route Error:" e)).
Proof.
  intros H. unfold queryRoute, try_catch, bind. cbn -[validate_transaction].
  now rewrite H.
Qed.

(** A batch that passes the checks: [executeTransaction] gets the options
    object for its statements and no data source. *)
Lemma queryRoute_batch_valid this item items isRaw st queries :
  validate_transaction (item :: items) = inr queries ->
  queryRoute this (transaction_request (item :: items)) isRaw st
  = (inr (createResponse (Some (BatchResult [])) None 200),
     logged st (EvConsoleError "Data source not found.")).
Proof.
  intros H. unfold queryRoute, try_catch, bind. cbn -[validate_transaction].
  now rewrite H.
Qed.

Lemma queryRoute_single_invalid_sql this sql params isRaw st :
  invalid_sql sql = true ->
  queryRoute this (single_request sql params) isRaw st
  = (inr (createResponse None
            (Some ("Invalid or empty " ++ quote ++ "sql" ++ quote
                   ++ " field.")%string) 400), st).
Proof.
  intros H. unfold queryRoute, try_catch, bind.
  cbn -[invalid_sql invalid_params]. now rewrite H.
Qed.

Lemma queryRoute_single_valid this sql params isRaw st :
  invalid_sql sql = false ->
  invalid_params params = false ->
  queryRoute this (single_request sql params) isRaw st
  = (inr (createResponse (Some (SingleResult (ObjResp []))) None 200),
     logged st (EvConsoleError "Data source not found.")).
Proof.
  intros Hsql Hparams. unfold queryRoute, try_catch, bind.
  cbn -[invalid_sql invalid_params]. now rewrite Hsql, Hparams.
Qed.

(** *** The route table and the application *)

Lemma handle_fresh this req now st :
  handle this req now fresh_app st
  = ((expireCache this now ;;
      handleError (dispatch (map (pair this) (routes this)) req)) st,
     served this fresh_app).
Proof. reflexivity. Qed.

Lemma handle_built this req now app st :
  app_built app = true ->
  handle this req now app st = (inl (Error matcher_already_built), st, app).
Proof. intros H. unfold handle. now rewrite H. Qed.

Lemma bind_ext {A B} (m : M A) (k1 k2 : A -> M B) st :
  (forall a s, k1 a s = k2 a s) -> bind m k1 st = bind m k2 st.
Proof.
  intros H. unfold bind. destruct (m st) as [[e | a] s]; [reflexivity | apply H].
Qed.

Lemma dispatch_rest (this : StarbaseDB) (req : Request) :
  getFeature this rest true = true ->
  method req <> OPTIONS ->
  segs_prefix ["rest"] (path req) = true ->
  dispatch (map (pair this) (routes this)) req
  = delegate (LiteRESTHandleRequest (dataSource this) (config this) req).
Proof.
  intros Hrest Hmethod Hpath. unfold routes. rewrite Hrest.
  destruct req as [m p ct j]. cbn [method path] in *.
  destruct p as [| s p']; [discriminate |].
  cbn [segs_prefix] in Hpath.
  destruct (String.eqb_spec "rest" s) as [<- | _]; [| discriminate].
  destruct m; try contradiction; reflexivity.
Qed.

Lemma dispatch_options (this : StarbaseDB) (req : Request) :
  method req = OPTIONS ->
  dispatch (map (pair this) (routes this)) req = ret corsPreflight.
Proof.
  intros Hmethod. unfold routes.
  cbn [app map dispatch r_method match_method].
  now rewrite Hmethod.
Qed.

Lemma guard_placement (this : StarbaseDB) (r : Route) :
  In r (routes this) ->
  (In IsInternalSource (r_middleware r) <-> export_or_import (r_handler r) = true)
  /\ (source (dataSource this) = External ->
      export_or_import (r_handler r) = true ->
      forall param valid,
        run_middleware this (r_middleware r) param valid = inl internal_only).
Proof.
  unfold routes.
  destruct (getFeature this rest true), (getFeature this export true),
    (getFeature this import true);
    cbn [app In]; intros Hin;
    repeat (destruct Hin as [<- | Hin]); try destruct Hin;
    (split;
     [ cbn; split; intros H; try discriminate; try reflexivity;
       try (now left);
       repeat (destruct H as [H | H]; try discriminate); try destruct H
     | cbn; intros Hsrc Hg param valid; try discriminate;
       rewrite Hsrc; reflexivity ]).
Qed.

End WithCollaborators.

(** C5, at the failing input.  A [params] that is [null] is neither an
    array nor a mapping, and it passes the check on [params], in a single
    statement and in an element of a batch: [typeof null] is ['object'].
    The element comes out of the checks as a statement with [null] for its
    parameters. *)
Theorem null_params_pass_validation :
  isArray VNull = false
  /\ typeof VNull = TObject
  /\ invalid_params VNull = false
  /\ validate_query (VObj [("sql", VStr "SELECT 1"); ("params", VNull)])
     = inr (mkQuery "SELECT 1" VNull)
  /\ validate_transaction
       [VObj [("sql", VStr "SELECT 1"); ("params", VNull)]]
     = inr [mkQuery "SELECT 1" VNull].
Proof. repeat split. Qed.

(** C7, at the failing inputs.  A batch with an element that fails the
    checks is answered with status 500: the error is thrown inside the [try]
    block and the [catch] block, which writes it to the console, answers
    every error alike; a single statement with an invalid [sql] is answered
    with status 400 and nothing is written.  And a single statement that
    passes the checks is answered with status 200 and an empty result
    whatever the allowlist would say of it: [executeQuery] is called with
    one options object, finds no data source and returns before any check,
    so the only event is its console message. *)
Theorem query_endpoint_misreports_errors {C : Collaborators}
  (this : StarbaseDB) (isRaw : bool) (st : State) :
  (forall item items e,
      validate_transaction (item :: items) = inl e ->
      queryRoute this (transaction_request (item :: items)) isRaw st
      = (inr (createResponse None (Some (error_message e)) 500),
         logged st (EvConsoleErrorWith "Query Route Error:" e)))
  /\ (forall sql params,
        invalid_sql sql = true ->
        queryRoute this (single_request sql params) isRaw st
        = (inr (createResponse None
                  (Some ("Invalid or empty " ++ quote ++ "sql" ++ quote
                         ++ " field.")%string) 400), st))
  /\ (forall sql params,
        invalid_sql sql = false ->
        invalid_params params = false ->
        queryRoute this (single_request sql params) isRaw st
        = (inr (createResponse (Some (SingleResult (ObjResp []))) None 200),
           logged st (EvConsoleError "Data source not found."))).
Proof.
  split; [| split].
  - intros item items e. apply queryRoute_batch_invalid.
  - intros sql params. apply queryRoute_single_invalid_sql.
  - intros sql params. apply queryRoute_single_valid.
Qed.

Lemma query_endpoint_misreports_errors_witness :
  let this := mkStarbaseDB Sample.internal Sample.with_allowlist in
  let blank :=
    ("Invalid or empty " ++ quote ++ "sql" ++ quote
     ++ " field in transaction.")%string in
  let secrets := "SELECT * FROM secrets" in
  (queryRoute this (transaction_request [VObj [("sql", VStr "  ")]]) false
     Sample.start
   = (inr (createResponse None (Some blank) 500),
      logged Sample.start (EvConsoleErrorWith "Query Route Error:" (Error blank))))
  /\ isQueryAllowed secrets true Sample.internal (Some Sample.with_allowlist)
       (world Sample.start)
     = (inl (Error "Query not allowed"), world Sample.start)
  /\ queryRoute this (single_request (VStr secrets) VUndefined) false
       Sample.start
     = (inr (createResponse (Some (SingleResult (ObjResp []))) None 200),
        logged Sample.start (EvConsoleError "Data source not found.")).
Proof.
  intros this blank secrets.
  destruct (query_endpoint_misreports_errors (C := Sample.collaborators)
              this false Sample.start) as [Hbatch [_ Hsingle]].
  split; [| split].
  - apply (Hbatch (VObj [("sql", VStr "  ")]) [] (Error blank)). reflexivity.
  - reflexivity.
  - apply (Hsingle (VStr secrets) VUndefined); reflexivity.
Defined.




End HandlerFacts.

(* ===================================================================== *)
(** ** More on the result shape transformer                               *)
(* ===================================================================== *)

Module TransformerMore.

(** *** The keys of an object after an assignment *)

Lemma obj_has_keys (o : JsObject) (k : string) :
  obj_has o k = existsb (fun k' => String.eqb k' k) (obj_keys o).
Proof.
  induction o as [| [k' v'] o IH]; simpl; [reflexivity |].
  destruct (String.eqb k' k); [reflexivity | exact IH].
Qed.

Lemma obj_keys_update (o : JsObject) (k : string) (v : JsValue) :
  obj_keys (obj_update o k v) = obj_keys o.
Proof.
  induction o as [| [k' v'] o IH]; simpl; [reflexivity |].
  destruct (String.eqb k' k); simpl; [reflexivity | now rewrite IH].
Qed.

Lemma obj_keys_insert (i : N) (k : string) (v : JsValue) (o : JsObject) :
  obj_keys (insert_index i k v o) = keys_insert_index i k (obj_keys o).
Proof.
  induction o as [| [k' v'] o IH]; simpl; [reflexivity |].
  destruct (array_index k') as [j |]; [| reflexivity].
  destruct (j <? i)%N; simpl; [now rewrite IH | reflexivity].
Qed.

Lemma obj_keys_define (o : JsObject) (k : string) (v : JsValue) :
  obj_keys (obj_define o k v) = keys_define (obj_keys o) k.
Proof.
  unfold obj_define, keys_define. rewrite obj_has_keys.
  destruct (existsb _ _); [apply obj_keys_update |].
  destruct (array_index k); [apply obj_keys_insert |].
  now rewrite TransformerFacts.obj_keys_app.
Qed.

Lemma obj_keys_set (o : JsObject) (k : string) (v : JsValue) :
  obj_keys (obj_set o k v) = keys_set (obj_keys o) k.
Proof.
  unfold obj_set, keys_set.
  destruct (String.eqb k "__proto__"); [reflexivity | apply obj_keys_define].
Qed.

Lemma obj_keys_reduce (cols : list string) :
  forall index row obj,
    obj_keys (reduce_columns cols index row obj)
    = keys_of_columns cols (obj_keys obj).
Proof.
  induction cols as [| c cols IH]; intros index row obj; simpl;
    [reflexivity |].
  now rewrite IH, obj_keys_set.
Qed.

Lemma in_keys_insert (i : N) (k x : string) (ks : list string) :
  In x (keys_insert_index i k ks) <-> x = k \/ In x ks.
Proof.
  induction ks as [| k' ks IH]; simpl.
  - intuition.
  - destruct (array_index k') as [j |]; [destruct (j <? i)%N |]; simpl;
      rewrite ?IH; intuition.
Qed.

Lemma nodup_keys_insert (i : N) (k : string) (ks : list string) :
  NoDup ks -> ~ In k ks -> NoDup (keys_insert_index i k ks).
Proof.
  induction ks as [| k' ks IH]; simpl; intros Hnd Hk.
  - constructor; [intros [] | constructor].
  - inversion Hnd as [| ? ? Hk' Hnd']; subst.
    destruct (array_index k') as [j |]; [destruct (j <? i)%N |];
      try (constructor; [simpl; intuition | assumption]).
    constructor.
    + rewrite in_keys_insert. intros [-> | Hin]; [apply Hk; now left | auto].
    + apply IH; [assumption | intros Hin; apply Hk; now right].
Qed.

Lemma existsb_eqb_in (ks : list string) (k : string) :
  existsb (fun k' => String.eqb k' k) ks = true <-> In k ks.
Proof.
  rewrite existsb_exists. split.
  - intros [x [Hin Heq]]. apply String.eqb_eq in Heq. now subst.
  - intros Hin. exists k. split; [assumption | apply String.eqb_refl].
Qed.

Lemma in_keys_define (ks : list string) (k x : string) :
  In x (keys_define ks k) <-> x = k \/ In x ks.
Proof.
  unfold keys_define.
  destruct (existsb _ ks) eqn:E.
  - apply existsb_eqb_in in E. split; [auto | intros [-> | H]; assumption].
  - destruct (array_index k); [apply in_keys_insert |].
    rewrite in_app_iff. simpl. intuition.
Qed.

Lemma nodup_keys_define (ks : list string) (k : string) :
  NoDup ks -> NoDup (keys_define ks k).
Proof.
  intros Hnd. unfold keys_define.
  destruct (existsb _ ks) eqn:E; [assumption |].
  assert (Hk : ~ In k ks).
  { intros Hin. apply existsb_eqb_in in Hin. congruence. }
  destruct (array_index k); [now apply nodup_keys_insert |].
  apply NoDup_app; [assumption | repeat constructor; intros [] |].
  intros x Hx [<- | []]. contradiction.
Qed.

Lemma keys_of_columns_spec (cols : list string) :
  forall ks,
    NoDup ks ->
    NoDup (keys_of_columns cols ks)
    /\ (forall x, In x (keys_of_columns cols ks)
                  <-> In x ks \/ (In x cols /\ x <> "__proto__")).
Proof.
  induction cols as [| c cols IH]; intros ks Hnd; simpl.
  - split; [assumption | intuition].
  - assert (Hnd' : NoDup (keys_set ks c)).
    { unfold keys_set. destruct (String.eqb c "__proto__");
        [assumption | now apply nodup_keys_define]. }
    destruct (IH _ Hnd') as [H1 H2]. split; [assumption |].
    intros x. rewrite H2. unfold keys_set.
    destruct (String.eqb_spec c "__proto__") as [-> | Hc].
    + intuition. congruence.
    + rewrite in_keys_define. intuition. subst. auto.
Qed.

(** *** What a row object holds under a name *)

Lemma obj_get_update_same (o : JsObject) (k : string) (v : JsValue) :
  obj_has o k = true -> obj_get (obj_update o k v) k = v.
Proof.
  induction o as [| [k' v'] o IH]; simpl; [discriminate |].
  destruct (String.eqb k' k) eqn:E; simpl; rewrite E; auto.
Qed.

Lemma obj_get_update_other (o : JsObject) (k k' : string) (v : JsValue) :
  k' <> k -> obj_get (obj_update o k v) k' = obj_get o k'.
Proof.
  intros Hne. induction o as [| [k0 v0] o IH]; simpl; [reflexivity |].
  destruct (String.eqb_spec k0 k) as [-> | Hk0]; simpl.
  - destruct (String.eqb_spec k k'); [congruence | reflexivity].
  - now rewrite IH.
Qed.

Lemma obj_get_insert_same (i : N) (o : JsObject) (k : string) (v : JsValue) :
  obj_has o k = false -> obj_get (insert_index i k v o) k = v.
Proof.
  induction o as [| [k' v'] o IH]; simpl; intros H.
  - now rewrite String.eqb_refl.
  - destruct (String.eqb k' k) eqn:E; [discriminate |].
    destruct (array_index k') as [j |]; [destruct (j <? i)%N |]; simpl;
      rewrite ?E, ?String.eqb_refl; auto.
Qed.

Lemma obj_get_insert_other (i : N) (o : JsObject) (k k' : string) (v : JsValue) :
  k' <> k -> obj_get (insert_index i k v o) k' = obj_get o k'.
Proof.
  intros Hne. induction o as [| [k0 v0] o IH]; simpl.
  - destruct (String.eqb_spec k k'); [congruence | reflexivity].
  - destruct (array_index k0) as [j |]; [destruct (j <? i)%N |]; simpl;
      rewrite ?IH; try reflexivity;
      destruct (String.eqb_spec k k'); congruence.
Qed.

Lemma obj_get_app_same (o : JsObject) (k : string) (v : JsValue) :
  obj_has o k = false -> obj_get (o ++ [(k, v)]) k = v.
Proof.
  induction o as [| [k' v'] o IH]; simpl; intros H.
  - now rewrite String.eqb_refl.
  - destruct (String.eqb k' k); [discriminate | auto].
Qed.

Lemma obj_get_app_other (o : JsObject) (k k' : string) (v : JsValue) :
  k' <> k -> obj_get (o ++ [(k, v)]) k' = obj_get o k'.
Proof.
  intros Hne. induction o as [| [k0 v0] o IH]; simpl.
  - destruct (String.eqb_spec k k'); [congruence | reflexivity].
  - now rewrite IH.
Qed.

Lemma obj_get_define_same (o : JsObject) (k : string) (v : JsValue) :
  obj_get (obj_define o k v) k = v.
Proof.
  unfold obj_define. destruct (obj_has o k) eqn:E.
  - now apply obj_get_update_same.
  - destruct (array_index k);
      [now apply obj_get_insert_same | now apply obj_get_app_same].
Qed.

Lemma obj_get_define_other (o : JsObject) (k k' : string) (v : JsValue) :
  k' <> k -> obj_get (obj_define o k v) k' = obj_get o k'.
Proof.
  intros Hne. unfold obj_define. destruct (obj_has o k).
  - now apply obj_get_update_other.
  - destruct (array_index k);
      [now apply obj_get_insert_other | now apply obj_get_app_other].
Qed.

Lemma obj_get_reduce (cols : list string) :
  forall index row obj c,
    c <> "__proto__" ->
    obj_get (reduce_columns cols index row obj) c
    = match last_index c cols with
      | Some i => nth (index + i) row VUndefined
      | None => obj_get obj c
      end.
Proof.
  induction cols as [| x cols IH]; intros index row obj c Hc; simpl;
    [reflexivity |].
  rewrite IH by assumption.
  destruct (last_index c cols) as [i |].
  - f_equal. lia.
  - unfold obj_set.
    destruct (String.eqb_spec x c) as [-> | Hx].
    + destruct (String.eqb_spec c "__proto__"); [contradiction |].
      rewrite obj_get_define_same. f_equal. lia.
    + destruct (String.eqb x "__proto__"); [reflexivity |].
      apply obj_get_define_other. congruence.
Qed.

Lemma obj_get_reduce_proto (cols : list string) :
  forall index row obj,
    obj_get (reduce_columns cols index row obj) "__proto__"
    = obj_get obj "__proto__".
Proof.
  induction cols as [| x cols IH]; intros index row obj; simpl;
    [reflexivity |].
  rewrite IH. unfold obj_set.
  destruct (String.eqb_spec x "__proto__") as [-> | Hx]; [reflexivity |].
  apply obj_get_define_other. congruence.
Qed.



Lemma rebuild_object (o : JsObject) :
  NoDup (obj_keys o) ->
  combine (obj_keys o) (map (fun col => obj_read o col) (obj_keys o)) = o.
Proof.
  intros Hnd.
  transitivity
    (combine (obj_keys o) (map (fun col => obj_get o col) (obj_keys o))).
  { f_equal. apply map_ext_in. intros col Hin.
    now apply TransformerFacts.obj_read_own. }
  revert Hnd.
  induction o as [| [k v] o IH]; simpl; intros Hnd; [reflexivity |].
  inversion Hnd as [| ? ? Hk Hnd']; subst.
  rewrite String.eqb_refl. f_equal.
  rewrite <- (IH Hnd') at 3. f_equal.
  apply map_ext_in. intros col Hin.
  destruct (String.eqb_spec k col) as [-> | _]; [contradiction | reflexivity].
Qed.

(** X3.  Row objects that all have the same keys in the same order, the
    keys being pairwise distinct plain names, survive the trip to the raw
    shape and back unchanged. *)
Theorem object_roundtrip (objs : list JsObject) (cols : list string) :
  (forall o, In o objs -> obj_keys o = cols) ->
  NoDup cols ->
  Forall plain_column cols ->
  exists r,
    transformRawResults (ObjResp objs) DirTo = inr (RawResp r) /\
    transformRawResults (RawResp r) DirFrom = inr (ObjResp objs).
Proof.
  intros Hkeys Hnd Hplain.
  eexists. split; [reflexivity |]. simpl. do 2 f_equal.
  destruct objs as [| first rest]; [reflexivity |].
  assert (Hfirst : obj_keys first = cols) by (apply Hkeys; now left).
  cbn [hd]. rewrite Hfirst, map_map.
  rewrite <- (map_id (first :: rest)) at 2.
  apply map_ext_in. intros o Hin.
  rewrite TransformerFacts.row_to_object_zip;
    [| assumption | assumption | apply length_map].
  rewrite <- (Hkeys o Hin) in *. now apply rebuild_object.
Qed.

Lemma object_roundtrip_witness :
  exists r,
    transformRawResults
      (ObjResp [[("id", VNum 1); ("name", VStr "a")];
                [("id", VNum 2); ("name", VNull)]]) DirTo
    = inr (RawResp r) /\
    transformRawResults (RawResp r) DirFrom
    = inr (ObjResp [[("id", VNum 1); ("name", VStr "a")];
                    [("id", VNum 2); ("name", VNull)]]).
Proof.
  apply (object_roundtrip _ ["id"; "name"]).
  - intros o [<- | [<- | []]]; reflexivity.
  - repeat constructor; simpl; intuition discriminate.
  - repeat constructor; discriminate.
Defined.

End TransformerMore.

(* ===================================================================== *)
(** ** More on the operation module                                       *)
(* ===================================================================== *)

Module OperationMore.

Section WithCollaborators.

Context {C : Collaborators}.

(** *** Which events a computation adds *)

Lemma emits_ret {A} P (a : A) : emits P (ret a).
Proof.
  intros st r st' H. injection H as _ <-. exists []. now rewrite app_nil_r.
Qed.

Lemma emits_throw {A} P (e : Thrown) : emits P (@throw _ A e).
Proof.
  intros st r st' H. injection H as _ <-. exists []. now rewrite app_nil_r.
Qed.

Lemma emits_lift {A} P (r : Thrown + A) : emits P (lift r).
Proof. destruct r; [apply emits_throw | apply emits_ret]. Qed.

Lemma emits_log (P : Event -> Prop) ev : P ev -> emits P (log ev).
Proof.
  intros Hev st r st' H. injection H as _ <-. exists [ev]. auto.
Qed.

Lemma emits_call {A} (P : Event -> Prop) ev
  (f : World -> (Thrown + A) * World) :
  P ev -> emits P (call ev f).
Proof.
  intros Hev st r st' H. unfold call in H. destruct (f (world st)) as [r0 w'].
  injection H as _ <-. exists [ev]. auto.
Qed.

Lemma emits_bind {A B} P (m : M A) (k : A -> M B) :
  emits P m -> (forall a, emits P (k a)) -> emits P (bind m k).
Proof.
  intros Hm Hk st r st' H. unfold bind in H.
  destruct (m st) as [[e | a] st1] eqn:E.
  - injection H as _ <-. eapply Hm, E.
  - destruct (Hm _ _ _ E) as [e1 [H1 F1]].
    destruct (Hk a _ _ _ H) as [e2 [H2 F2]].
    exists (e1 ++ e2). split; [now rewrite H2, H1, app_assoc |].
    apply Forall_app. now split.
Qed.

Lemma emits_try_catch {A} P (m : M A) (h : Thrown -> M A) :
  emits P m -> (forall e, emits P (h e)) -> emits P (try_catch m h).
Proof.
  intros Hm Hh st r st' H. unfold try_catch in H.
  destruct (m st) as [[e | a] st1] eqn:E.
  - destruct (Hm _ _ _ E) as [e1 [H1 F1]].
    destruct (Hh e _ _ _ H) as [e2 [H2 F2]].
    exists (e1 ++ e2). split; [now rewrite H2, H1, app_assoc |].
    apply Forall_app. now split.
  - injection H as _ <-. eapply Hm, E.
Qed.

Lemma emits_afterQuery P sql r isRaw ds cfg :
  emits P (afterQuery sql r isRaw ds cfg).
Proof.
  unfold afterQuery. apply emits_bind.
  - destruct isRaw; [apply emits_lift | apply emits_ret].
  - intros a. destruct isRaw; [apply emits_lift | apply emits_ret].
Qed.

Lemma emits_executeSDKQuery (P : Event -> Prop) sql params d cfg :
  (forall ev, external_event ev -> P ev) ->
  (forall msg, P (EvConsoleWarn msg)) ->
  emits P (executeSDKQuery sql params d cfg).
Proof.
  intros Hext Hwarn. unfold executeSDKQuery.
  destruct (dyn_external d) as [[ext |] |]; [| | apply emits_throw].
  - destruct (select_adapter ext); [| apply emits_throw].
    apply emits_bind; [| intros _]; apply emits_call; apply Hext; exact I.
  - apply emits_bind; [apply emits_log, Hwarn | intros _; apply emits_ret].
Qed.

(** The pipeline adds events of a kind [P] only, when [P] holds of the two
    security events, of the cache events in object mode and of what the
    dispatch adds. *)
Lemma emits_executeQuery (P : Event -> Prop) sql params isRaw ds cfg :
  (forall s b, P (EvAllowlist s b)) ->
  (forall s b, P (EvRLS s b)) ->
  (isRaw = false -> forall ev, cache_event ev -> P ev) ->
  (forall sql' params', emits P (dispatch_query ds sql' params' isRaw)) ->
  emits P (executeQuery sql params isRaw (Some ds) cfg).
Proof.
  intros Hallow Hrls Hcache Hdispatch. unfold executeQuery.
  apply emits_try_catch; [| intros e; apply emits_throw].
  apply emits_bind; [apply emits_call, Hallow | intros _].
  apply emits_bind; [apply emits_call, Hrls | intros sql'].
  apply emits_bind; [unfold beforeQuery; apply emits_ret | intros [s p]].
  apply emits_bind.
  - destruct isRaw; simpl; [apply emits_ret |].
    apply emits_call, Hcache; [reflexivity | exact I].
  - intros [c |]; [apply emits_ret |].
    apply emits_bind; [exact (Hdispatch s p) | intros response].
    apply emits_bind; [| intros _; apply emits_afterQuery].
    destruct isRaw; simpl; [apply emits_ret |].
    apply emits_call, Hcache; [reflexivity | exact I].
Qed.

Lemma emits_dispatch_shifted (P : Event -> Prop) ds sql params isRaw :
  source ds = External -> emits P (dispatch_query ds sql params isRaw).
Proof.
  intros Hsrc st r st' H. unfold dispatch_query in H. rewrite Hsrc in H.
  rewrite OperationFacts.executeExternalQuery_shifted in H.
  injection H as _ <-. exists []. now rewrite app_nil_r.
Qed.

Lemma emits_dispatch_internal (P : Event -> Prop) ds sql params isRaw :
  source ds = Internal ->
  (forall s p r, P (EvRpc s p r)) ->
  emits P (dispatch_query ds sql params isRaw).
Proof.
  intros Hsrc Hrpc. unfold dispatch_query. rewrite Hsrc.
  apply emits_call, Hrpc.
Qed.

(** *** The stages of [executeQuery] *)

Lemma executeQuery_stages (sql : string) (params : JsValue) (isRaw : bool)
  (ds : DataSource) (cfg : option StarbaseDBConfiguration) (st : State) :
  executeQuery sql params isRaw (Some ds) cfg st
  = let allow := feature_flag cfg allowlist false in
    let enabled := feature_flag cfg rls false in
    match isQueryAllowed sql allow ds cfg (world st) with
    | (inl e, w1) =>
        (inl (rethrow e), mkState w1 (trace st ++ [EvAllowlist sql allow]))
    | (inr _, w1) =>
        let t1 := trace st ++ [EvAllowlist sql allow] in
        match applyRLS sql enabled (external_dialect ds) ds cfg w1 with
        | (inl e, w2) =>
            (inl (rethrow e), mkState w2 (t1 ++ [EvRLS sql enabled]))
        | (inr sql', w2) =>
            let st2 := mkState w2 (t1 ++ [EvRLS sql enabled]) in
            match (if isRaw then ret None st2
                   else call (EvCacheLookup sql' params)
                          (beforeQueryCache sql' params ds) st2) with
            | (inl e, st3) => (inl (rethrow e), st3)
            | (inr (Some cached), st3) => (inr cached, st3)
            | (inr None, st3) =>
                match dispatch_query ds sql' params isRaw st3 with
                | (inl e, st4) => (inl (rethrow e), st4)
                | (inr response, st4) =>
                    match (if isRaw then ret tt st4
                           else call (EvCacheStore sql' params response)
                                  (afterQueryCache sql' params response ds)
                                  st4) with
                    | (inl e, st5) => (inl (rethrow e), st5)
                    | (inr _, st5) =>
                        match afterQuery sql' response isRaw (Some ds) cfg st5
                        with
                        | (inl e, st6) => (inl (rethrow e), st6)
                        | (inr r, st6) => (inr r, st6)
                        end
                    end
                end
            end
        end
    end.
Proof.
  cbv zeta. unfold executeQuery, try_catch, dispatch_query.
  unfold bind at 1. unfold call at 1.
  destruct (isQueryAllowed _ _ _ _ _) as [[e | b] w1]; [reflexivity |].
  unfold bind at 1. unfold call at 1. cbn [world trace].
  destruct (applyRLS _ _ _ _ _ _) as [[e | sql'] w2]; [reflexivity |].
  unfold bind at 1. unfold beforeQuery. unfold ret at 1.
  unfold bind at 1.
  match goal with
  | |- context [(if negb isRaw then ?a else ?b) ?s] =>
      replace ((if negb isRaw then a else b) s)
        with (if isRaw then b s else a s) by now destruct isRaw
  end.
  match goal with
  | |- context [if isRaw then ?a else ?b] =>
      destruct (if isRaw then a else b) as [[e | [cached |]] st3]
  end; try reflexivity.
  unfold bind at 1.
  match goal with
  | |- context [match source ds with Internal => ?a | External => ?b end ?s] =>
      destruct (match source ds with Internal => a | External => b end s)
        as [[e | response] st4]
  end; [reflexivity |].
  unfold bind at 1.
  match goal with
  | |- context [(if negb isRaw then ?a else ?b) ?s] =>
      replace ((if negb isRaw then a else b) s)
        with (if isRaw then b s else a s) by now destruct isRaw
  end.
  match goal with
  | |- context [if isRaw then ?a else ?b] =>
      destruct (if isRaw then a else b) as [[e | []] st5]
  end; [reflexivity |].
  destruct (afterQuery _ _ _ _ _ _) as [[e | r] st6]; reflexivity.
Qed.

(** *** The two ends of [afterQuery] *)

Lemma afterQuery_object sql r ds cfg st :
  afterQuery sql r false ds cfg st = (inr r, st).
Proof. reflexivity. Qed.

Lemma afterQuery_raw sql result ds cfg st :
  afterQuery sql result true ds cfg st
  = (match transformRawResults result DirFrom with
     | inl e => inl e
     | inr objs => transformRawResults objs DirTo
     end, st).
Proof.
  unfold afterQuery, bind.
  destruct (transformRawResults result DirFrom) as [e | objs]; cbn [lift];
    [reflexivity |].
  unfold ret. now destruct (transformRawResults objs DirTo).
Qed.

Lemma afterQuery_rebuilds sql result ds cfg st r' st' :
  afterQuery sql result true ds cfg st = (inr r', st') ->
  st' = st /\
  exists r0 raw,
    result = RawResp r0 /\ r' = RawResp raw /\ rebuilt_raw raw /\
    length (rows raw) = length (rows r0).
Proof.
  rewrite afterQuery_raw. intros H. injection H as Hr <-.
  split; [reflexivity |].
  destruct result as [r0 | objs | [| | | | | | |]]; try discriminate.
  cbn in Hr. injection Hr as <-.
  exists r0. eexists. split; [reflexivity |]. split; [reflexivity |].
  split; [| cbn; now rewrite !length_map].
  unfold rebuilt_raw. cbn. split; [reflexivity |]. split; [reflexivity |].
  split.
  - destruct (rows r0) as [| row rest]; cbn; [constructor |].
    unfold row_to_object. rewrite TransformerMore.obj_keys_reduce.
    apply TransformerMore.keys_of_columns_spec. constructor.
  - apply Forall_forall. intros row Hin. apply in_map_iff in Hin.
    destruct Hin as [o [<- _]]. apply length_map.
Qed.

End WithCollaborators.

(** X4.  In raw mode, with a data source, whatever [executeQuery] returns is
    a raw result rebuilt by the transformer: [rows_written] is 0 and
    [rows_read] is the number of rows whatever the engine reported, the
    column names are pairwise distinct and every row has one value per
    column. *)
Theorem raw_mode_result_is_rebuilt {C : Collaborators}
  (sql : string) (params : JsValue) (ds : DataSource)
  (cfg : option StarbaseDBConfiguration) (st : State)
  (r' : QueryResponse) (st' : State) :
  executeQuery sql params true (Some ds) cfg st = (inr r', st') ->
  exists raw, r' = RawResp raw /\ rebuilt_raw raw.
Proof.
  rewrite executeQuery_stages. cbv zeta.
  destruct (isQueryAllowed _ _ _ _ _) as [[e | b] w1]; [discriminate |].
  destruct (applyRLS _ _ _ _ _ _) as [[e | sql'] w2]; [discriminate |].
  cbn [ret].
  destruct (dispatch_query _ _ _ _ _) as [[e | response] st4];
    [discriminate |].
  destruct (afterQuery _ _ _ _ _ _) as [[e | r] st6] eqn:E; [discriminate |].
  intros H. injection H as <- <-.
  destruct (afterQuery_rebuilds _ _ _ _ _ _ _ E)
    as [_ [r0 [raw [_ [-> [Hraw _]]]]]].
  now exists raw.
Qed.

Lemma raw_mode_result_is_rebuilt_witness :
  exists raw,
    RawResp (mkRaw ["ok"] [[VNum 1]] (mkMeta 1 0)) = RawResp raw
    /\ rebuilt_raw raw.
Proof.
  apply (raw_mode_result_is_rebuilt (C := Sample.collaborators)
           "SELECT 1" VUndefined Sample.internal (Some Sample.plain)
           Sample.start _
           (Sample.state (Sample.mkWorld ["SELECT 1"] [])
              [EvAllowlist "SELECT 1" false; EvRLS "SELECT 1" false;
               EvRpc "SELECT 1" VUndefined (Some true)])).
  reflexivity.
Defined.

(** X6.  In object mode, when the cache has an entry for the statement
    [applyRLS] returned, [executeQuery] returns that entry as it is, for an
    internal and for an external source alike: after the lookup nothing
    else happens, no backend call, no cache write, no transformation. *)
Theorem cache_hit_short_circuits {C : Collaborators}
  (sql : string) (params : JsValue) (ds : DataSource)
  (cfg : option StarbaseDBConfiguration) (st : State)
  (b : bool) (w1 : World) (sql' : string) (w2 : World)
  (cached : QueryResponse) (w3 : World) :
  isQueryAllowed sql (feature_flag cfg allowlist false) ds cfg (world st)
  = (inr b, w1) ->
  applyRLS sql (feature_flag cfg rls false) (external_dialect ds) ds cfg w1
  = (inr sql', w2) ->
  beforeQueryCache sql' params ds w2 = (inr (Some cached), w3) ->
  executeQuery sql params false (Some ds) cfg st
  = (inr cached,
     mkState w3
       (trace st
        ++ [EvAllowlist sql (feature_flag cfg allowlist false);
            EvRLS sql (feature_flag cfg rls false);
            EvCacheLookup sql' params])).
Proof.
  intros Hallow Hrls Hcache. rewrite executeQuery_stages. cbv zeta.
  rewrite Hallow, Hrls. unfold call. cbn [world trace]. rewrite Hcache.
  now rewrite <- !app_assoc.
Qed.

Lemma cache_hit_short_circuits_witness :
  let entry := ObjResp [[("n", VNum 42)]] in
  executeQuery "SELECT n" VUndefined false (Some Sample.remote)
    (Some Sample.plain)
    (Sample.state (Sample.mkWorld [] [("SELECT n", entry)]) [])
  = (inr entry,
     Sample.state (Sample.mkWorld [] [("SELECT n", entry)])
       ([] ++ [EvAllowlist "SELECT n" false; EvRLS "SELECT n" false;
               EvCacheLookup "SELECT n" VUndefined])).
Proof.
  intros entry.
  apply (cache_hit_short_circuits (C := Sample.collaborators)
           "SELECT n" VUndefined Sample.remote (Some Sample.plain)
           (Sample.state (Sample.mkWorld [] [("SELECT n", entry)]) [])
           true (Sample.mkWorld [] [("SELECT n", entry)]) "SELECT n"
           (Sample.mkWorld [] [("SELECT n", entry)]) entry
           (Sample.mkWorld [] [("SELECT n", entry)]));
    reflexivity.
Defined.

(** X7.  In object mode on an internal source, a cache miss is followed by
    one call of the engine with the statement [applyRLS] returned and the
    caller's parameters, then by one cache write of the engine's answer
    under that same statement and parameters; the answer is returned as the
    engine gave it. *)
Theorem cache_miss_runs_and_stores {C : Collaborators}
  (sql : string) (params : JsValue) (ds : DataSource)
  (cfg : option StarbaseDBConfiguration) (st : State)
  (b : bool) (w1 : World) (sql' : string) (w2 w3 : World)
  (response : QueryResponse) (w4 w5 : World) :
  source ds = Internal ->
  isQueryAllowed sql (feature_flag cfg allowlist false) ds cfg (world st)
  = (inr b, w1) ->
  applyRLS sql (feature_flag cfg rls false) (external_dialect ds) ds cfg w1
  = (inr sql', w2) ->
  beforeQueryCache sql' params ds w2 = (inr None, w3) ->
  rpc_executeQuery sql' params (Some false) w3 = (inr response, w4) ->
  afterQueryCache sql' params response ds w4 = (inr tt, w5) ->
  executeQuery sql params false (Some ds) cfg st
  = (inr response,
     mkState w5
       (trace st
        ++ [EvAllowlist sql (feature_flag cfg allowlist false);
            EvRLS sql (feature_flag cfg rls false);
            EvCacheLookup sql' params;
            EvRpc sql' params (Some false);
            EvCacheStore sql' params response])).
Proof.
  intros Hsrc Hallow Hrls Hmiss Hrpc Hstore.
  rewrite executeQuery_stages. cbv zeta.
  rewrite Hallow, Hrls. unfold call at 1. cbn [world trace]. rewrite Hmiss.
  unfold dispatch_query. rewrite Hsrc. unfold call at 1. cbn [world trace].
  rewrite Hrpc. unfold call at 1. cbn [world trace]. rewrite Hstore.
  rewrite afterQuery_object. now rewrite <- !app_assoc.
Qed.

Lemma cache_miss_runs_and_stores_witness :
  let answer := ObjResp [[("ok", VNum 1)]] in
  executeQuery "SELECT 1" VUndefined false (Some Sample.internal)
    (Some Sample.plain) Sample.start
  = (inr answer,
     Sample.state (Sample.mkWorld ["SELECT 1"] [("SELECT 1", answer)])
       ([] ++ [EvAllowlist "SELECT 1" false; EvRLS "SELECT 1" false;
               EvCacheLookup "SELECT 1" VUndefined;
               EvRpc "SELECT 1" VUndefined (Some false);
               EvCacheStore "SELECT 1" VUndefined answer])).
Proof.
  intros answer.
  apply (cache_miss_runs_and_stores (C := Sample.collaborators)
           "SELECT 1" VUndefined Sample.internal (Some Sample.plain)
           Sample.start true (Sample.mkWorld [] []) "SELECT 1"
           (Sample.mkWorld [] []) (Sample.mkWorld [] []) answer
           (Sample.mkWorld ["SELECT 1"] [])
           (Sample.mkWorld ["SELECT 1"] [("SELECT 1", answer)]));
    reflexivity.
Defined.

(** X8.  In raw mode [executeQuery] never touches the cache: whatever the
    collaborators do and however the call ends, none of the events it adds
    is a cache lookup or a cache write. *)
Theorem raw_mode_skips_cache {C : Collaborators}
  (sql : string) (params : JsValue) (ds : option DataSource)
  (cfg : option StarbaseDBConfiguration) (st : State) :
  exists evs,
    trace (snd (executeQuery sql params true ds cfg st)) = trace st ++ evs
    /\ Forall (fun ev => ~ cache_event ev) evs.
Proof.
  destruct ds as [ds |].
  - destruct (executeQuery sql params true (Some ds) cfg st) as [r st'] eqn:E.
    refine (emits_executeQuery (fun ev => ~ cache_event ev)
              sql params true ds cfg _ _ _ _ st r st' E); try (cbn; tauto).
    + discriminate.
    + intros sql' params'. unfold dispatch_query.
      destruct (source ds).
      * apply emits_call. cbn. tauto.
      * intros s r0 s' H.
        rewrite OperationFacts.executeExternalQuery_shifted in H.
        injection H as _ <-. exists []. now rewrite app_nil_r.
  - exists [EvConsoleError "Data source not found."]. split; [reflexivity |].
    repeat constructor. cbn. tauto.
Qed.

(** X9.  On an internal source [executeQuery] never takes the external
    path: no SDK connection is opened, no statement is sent through a
    driver and nothing is posted to the hosted endpoint. *)
Theorem internal_source_stays_internal {C : Collaborators}
  (sql : string) (params : JsValue) (isRaw : bool) (ds : DataSource)
  (cfg : option StarbaseDBConfiguration) (st : State) :
  source ds = Internal ->
  exists evs,
    trace (snd (executeQuery sql params isRaw (Some ds) cfg st))
    = trace st ++ evs
    /\ Forall (fun ev => ~ external_event ev) evs.
Proof.
  intros Hsrc.
  destruct (executeQuery sql params isRaw (Some ds) cfg st) as [r st'] eqn:E.
  refine (emits_executeQuery (fun ev => ~ external_event ev)
            sql params isRaw ds cfg _ _ _ _ st r st' E); try (cbn; tauto).
  - intros _ ev Hev. destruct ev; cbn in *; tauto.
  - intros sql' params'. apply emits_dispatch_internal; [assumption |].
    cbn. tauto.
Qed.

Lemma internal_source_stays_internal_witness :
  exists evs,
    trace (snd (executeQuery "SELECT 1" VUndefined false
                  (Some Sample.internal) (Some Sample.plain) Sample.start))
    = trace Sample.start ++ evs
    /\ Forall (fun ev => ~ external_event ev) evs.
Proof.
  apply (internal_source_stays_internal (C := Sample.collaborators)).
  reflexivity.
Defined.

(** X10.  On an external source a call of [executeQuery] that returns a
    result was answered by the cache: it was in object mode, the allowlist
    check and [applyRLS] returned, the lookup made for the statement
    [applyRLS] returned, in the state [applyRLS] left, gave the result, and
    the lookup is the last event: no backend of any kind was called. *)
Theorem external_source_answers_from_cache_only {C : Collaborators}
  (sql : string) (params : JsValue) (isRaw : bool) (ds : DataSource)
  (cfg : option StarbaseDBConfiguration) (st : State)
  (r : QueryResponse) (st' : State) :
  source ds = External ->
  executeQuery sql params isRaw (Some ds) cfg st = (inr r, st') ->
  isRaw = false
  /\ exists b w1 sql' w2,
       isQueryAllowed sql (feature_flag cfg allowlist false) ds cfg (world st)
       = (inr b, w1)
       /\ applyRLS sql (feature_flag cfg rls false) (external_dialect ds) ds
            cfg w1
          = (inr sql', w2)
       /\ beforeQueryCache sql' params ds w2 = (inr (Some r), world st')
       /\ trace st'
          = trace st
            ++ [EvAllowlist sql (feature_flag cfg allowlist false);
                EvRLS sql (feature_flag cfg rls false);
                EvCacheLookup sql' params].
Proof.
  intros Hsrc. rewrite executeQuery_stages. cbv zeta.
  destruct (isQueryAllowed _ _ _ _ _) as [[e | b] w1] eqn:Hallow;
    [discriminate |].
  destruct (applyRLS _ _ _ _ _ _) as [[e | sql'] w2] eqn:Hrls;
    [discriminate |].
  assert (Hshift : forall s,
             dispatch_query ds sql' params isRaw s
             = (inl (Error "External connection not found."), s)).
  { intros s. unfold dispatch_query. rewrite Hsrc.
    apply OperationFacts.executeExternalQuery_shifted. }
  destruct isRaw.
  - cbn [ret]. rewrite Hshift. discriminate.
  - unfold call at 1. cbn [world trace].
    destruct (beforeQueryCache sql' params ds w2) as [[e | [c |]] w3] eqn:Hc.
    + discriminate.
    + intros H. injection H as <- <-. split; [reflexivity |].
      exists b, w1, sql', w2. split; [reflexivity |].
      split; [exact Hrls |]. split; [exact Hc |].
      cbn. now rewrite <- !app_assoc.
    + rewrite Hshift. discriminate.
Qed.

Lemma external_source_answers_from_cache_only_witness :
  let entry := ObjResp [[("n", VNum 42)]] in
  let w := Sample.mkWorld [] [("SELECT n", entry)] in
  let st := Sample.state w [] in
  let st' :=
    Sample.state w
      [EvAllowlist "SELECT n" false; EvRLS "SELECT n" false;
       EvCacheLookup "SELECT n" VUndefined] in
  false = false
  /\ exists b w1 sql' w2,
       isQueryAllowed "SELECT n" false Sample.remote (Some Sample.plain)
         (world st)
       = (inr b, w1)
       /\ applyRLS "SELECT n" false (Some "postgres") Sample.remote
            (Some Sample.plain) w1
          = (inr sql', w2)
       /\ beforeQueryCache sql' VUndefined Sample.remote w2
          = (inr (Some entry), world st')
       /\ trace st'
          = trace st
            ++ [EvAllowlist "SELECT n" false; EvRLS "SELECT n" false;
                EvCacheLookup sql' VUndefined].
Proof.
  intros entry w st st'.
  apply (external_source_answers_from_cache_only (C := Sample.collaborators)
           "SELECT n" VUndefined false Sample.remote (Some Sample.plain) st
           entry st').
  - reflexivity.
  - reflexivity.
Defined.

(** *** What a batch that ran can tell about its statements *)

Lemma run_queries_returned {C : Collaborators} isRaw ds cfg qs :
  forall acc st rs st',
    run_queries qs isRaw (Some ds) cfg acc st = (inr rs, st') ->
    exists rs', rs = acc ++ rs' /\ batch_run isRaw ds cfg qs st rs' st'.
Proof.
  induction qs as [| q qs IH]; intros acc st rs st' H; cbn [run_queries] in H.
  - injection H as <- <-. exists []. split; [now rewrite app_nil_r |].
    constructor.
  - unfold bind in H.
    destruct (executeQuery _ _ _ _ _ st) as [[e | r] st1] eqn:E;
      [discriminate |].
    destruct (IH _ _ _ _ H) as [rs' [-> Hrun]].
    exists (r :: rs'). split; [now rewrite <- app_assoc |].
    econstructor; eassumption.
Qed.

Lemma run_queries_threw {C : Collaborators} isRaw ds cfg qs :
  forall acc st e st',
    run_queries qs isRaw (Some ds) cfg acc st = (inl e, st') ->
    exists pre q post rs st1,
      qs = pre ++ q :: post
      /\ batch_run isRaw ds cfg pre st rs st1
      /\ executeQuery (q_sql q) (q_params q) isRaw (Some ds) cfg st1
         = (inl e, st').
Proof.
  induction qs as [| q qs IH]; intros acc st e st' H; cbn [run_queries] in H;
    [discriminate |].
  unfold bind in H.
  destruct (executeQuery _ _ _ _ _ st) as [[e1 | r] st1] eqn:E.
  - injection H as <- <-. exists [], q, qs, [], st.
    repeat split; [constructor | exact E].
  - destruct (IH _ _ _ _ H) as [pre [q' [post [rs [st2 [-> [Hrun Hq]]]]]]].
    exists (q :: pre), q', post, (r :: rs), st2.
    repeat split; [econstructor; eassumption | exact Hq].
Qed.

Lemma batch_run_length {C : Collaborators} isRaw ds cfg qs st rs st' :
  batch_run isRaw ds cfg qs st rs st' -> length rs = length qs.
Proof. induction 1; simpl; congruence. Qed.

(** X11.  With a data source, [executeTransaction] returns a list of
    results exactly when its statements, run one after the other by
    [executeQuery], each in the state the one before left, all return; the
    list then has one result per statement, in the order of the statements,
    and an empty batch returns the empty list and does nothing. *)
Theorem transaction_results_are_per_statement {C : Collaborators}
  (queries : list Query) (isRaw : bool) (ds : DataSource)
  (cfg : option StarbaseDBConfiguration) (st : State) :
  (forall rs st',
      executeTransaction queries isRaw (Some ds) cfg st = (inr rs, st')
      <-> batch_run isRaw ds cfg queries st rs st')
  /\ (forall rs st',
         executeTransaction queries isRaw (Some ds) cfg st = (inr rs, st') ->
         length rs = length queries)
  /\ executeTransaction [] isRaw (Some ds) cfg st = (inr [], st).
Proof.
  assert (Hiff : forall rs st',
             executeTransaction queries isRaw (Some ds) cfg st = (inr rs, st')
             <-> batch_run isRaw ds cfg queries st rs st').
  { intros rs st'. unfold executeTransaction. split.
    - intros H. apply run_queries_returned in H.
      destruct H as [rs' [-> Hrun]]. exact Hrun.
    - intros H. now rewrite (OperationFacts.run_queries_ok _ _ _ _ _ _ _ H []). }
  split; [exact Hiff |]. split; [| reflexivity].
  intros rs st' H. apply Hiff in H. eapply batch_run_length, H.
Qed.

Lemma transaction_results_are_per_statement_witness :
  length [ObjResp [[("ok", VNum 1)]]; ObjResp [[("ok", VNum 1)]]]
  = length [mkQuery "SELECT 1" VUndefined; mkQuery "SELECT 2" VUndefined].
Proof.
  refine (proj1 (proj2
            (transaction_results_are_per_statement (C := Sample.collaborators)
               [mkQuery "SELECT 1" VUndefined; mkQuery "SELECT 2" VUndefined]
               false Sample.internal (Some Sample.plain) Sample.start))
            _
            (Sample.state
               (Sample.mkWorld ["SELECT 1"; "SELECT 2"]
                  [("SELECT 2", ObjResp [[("ok", VNum 1)]]);
                   ("SELECT 1", ObjResp [[("ok", VNum 1)]])])
               [EvAllowlist "SELECT 1" false; EvRLS "SELECT 1" false;
                EvCacheLookup "SELECT 1" VUndefined;
                EvRpc "SELECT 1" VUndefined (Some false);
                EvCacheStore "SELECT 1" VUndefined (ObjResp [[("ok", VNum 1)]]);
                EvAllowlist "SELECT 2" false; EvRLS "SELECT 2" false;
                EvCacheLookup "SELECT 2" VUndefined;
                EvRpc "SELECT 2" VUndefined (Some false);
                EvCacheStore "SELECT 2" VUndefined (ObjResp [[("ok", VNum 1)]])])
            _).
  reflexivity.
Defined.

(** X12.  When [executeTransaction] throws, one of its statements threw:
    the statements before it all returned, in order, and the error and the
    final state are those of that statement's call of [executeQuery]. *)
Theorem transaction_error_is_a_statement_error {C : Collaborators}
  (queries : list Query) (isRaw : bool) (ds : DataSource)
  (cfg : option StarbaseDBConfiguration) (st : State)
  (e : Thrown) (st' : State) :
  executeTransaction queries isRaw (Some ds) cfg st = (inl e, st') ->
  exists pre q post rs st1,
    queries = pre ++ q :: post
    /\ batch_run isRaw ds cfg pre st rs st1
    /\ executeQuery (q_sql q) (q_params q) isRaw (Some ds) cfg st1
       = (inl e, st').
Proof.
  unfold executeTransaction. apply run_queries_threw.
Qed.

Lemma transaction_error_is_a_statement_error_witness :
  let queries :=
    [mkQuery "SELECT 1/0" VUndefined; mkQuery "SELECT 2" VUndefined] in
  let st' :=
    Sample.state (Sample.mkWorld ["SELECT 1/0"] [])
      [EvAllowlist "SELECT 1/0" false; EvRLS "SELECT 1/0" false;
       EvCacheLookup "SELECT 1/0" VUndefined;
       EvRpc "SELECT 1/0" VUndefined (Some false)] in
  exists pre q post rs st1,
    queries = pre ++ q :: post
    /\ batch_run false Sample.internal (Some Sample.plain) pre
         Sample.start rs st1
    /\ executeQuery (q_sql q) (q_params q) false (Some Sample.internal)
         (Some Sample.plain) st1
       = (inl (Error "division by zero"), st').
Proof.
  intros queries st'.
  apply (transaction_error_is_a_statement_error (C := Sample.collaborators)
           queries false Sample.internal (Some Sample.plain) Sample.start
           (Error "division by zero") st').
  reflexivity.
Defined.

(** X13.  The direct driver path.  Without a hosted credential (none, or
    the empty string) [executeExternalQuery] hands the statement and the
    parameters to [executeSDKQuery] untouched.  There the dialect decides
    before the provider; a descriptor that names no supported backend
    throws "Unsupported external database type" before anything is
    connected; a failing [connect] ends the call before the statement is
    sent; and otherwise the statement is sent once, right after the
    connection. *)
Theorem direct_driver_path {C : Collaborators}
  (sql : string) (params : JsValue) (ds : DataSource) (ext : ExternalSource)
  (cfg : StarbaseDBConfiguration) (st : State) :
  external ds = Some ext ->
  let run := executeSDKQuery sql params (DynDataSource ds) (DynConfig cfg) in
  (opt_truthy (outerbaseApiKey cfg) = false ->
   executeExternalQuery sql params (DynDataSource ds) (DynConfig cfg) st
   = run st)
  /\ (dialect ext = Some "postgres" ->
      select_adapter ext = Some PostgreSQLConnection)
  /\ (dialect ext = Some "mysql" ->
      select_adapter ext = Some MySQLConnection)
  /\ (select_adapter ext = None ->
      run st = (inl (Error "Unsupported external database type"), st))
  /\ (forall a e w,
         select_adapter ext = Some a ->
         sdk_connect a ext (world st) = (inl e, w) ->
         run st = (inl e, mkState w (trace st ++ [EvConnect a])))
  /\ (forall a w,
         select_adapter ext = Some a ->
         sdk_connect a ext (world st) = (inr tt, w) ->
         run st
         = (fst (sdk_raw a ext sql params w),
            mkState (snd (sdk_raw a ext sql params w))
              (trace st ++ [EvConnect a; EvSdkRaw a sql params]))).
Proof.
  intros Hext run. subst run.
  split; [| split; [| split; [| split; [| split]]]].
  - intros Hkey. unfold executeExternalQuery. cbn [dyn_external dyn_apiKey].
    now rewrite Hext, Hkey.
  - intros Hd. unfold select_adapter. now rewrite Hd.
  - intros Hd. unfold select_adapter. now rewrite Hd.
  - intros Hnone. unfold executeSDKQuery. cbn [dyn_external].
    now rewrite Hext, Hnone.
  - intros a e w Ha Hconn. unfold executeSDKQuery. cbn [dyn_external].
    rewrite Hext, Ha. unfold bind, call. now rewrite Hconn.
  - intros a w Ha Hconn. unfold executeSDKQuery. cbn [dyn_external].
    rewrite Hext, Ha. unfold bind, call. rewrite Hconn. cbn [world trace].
    destruct (sdk_raw a ext sql params w) as [r w']. cbn.
    now rewrite <- app_assoc.
Qed.

Lemma direct_driver_path_witness :
  executeExternalQuery "SELECT ?" (VArr [VNum 1])
    (DynDataSource Sample.remote) (DynConfig Sample.plain) Sample.start
  = executeSDKQuery "SELECT ?" (VArr [VNum 1])
      (DynDataSource Sample.remote) (DynConfig Sample.plain) Sample.start.
Proof.
  refine (proj1 (direct_driver_path (C := Sample.collaborators)
                   "SELECT ?" (VArr [VNum 1]) Sample.remote
                   (mkExternal (Some "postgres") None []) Sample.plain
                   Sample.start _) _); reflexivity.
Defined.

(** *** The text and the mapping sent to the hosted endpoint *)

Lemma count_marks_app (a b : string) :
  count_marks (a ++ b) = count_marks a + count_marks b.
Proof. induction a as [| c a IH]; simpl; [reflexivity | rewrite IH; lia]. Qed.

Lemma count_marks_uint (d : Decimal.uint) :
  count_marks (NilEmpty.string_of_uint d) = 0.
Proof. induction d; simpl; auto. Qed.

Lemma count_marks_replaced (sql : string) :
  forall n, count_marks (replace_placeholders sql n) = 0.
Proof.
  induction sql as [| c rest IH]; intros n; [reflexivity |].
  cbn [replace_placeholders].
  destruct (Ascii.eqb c "?") eqn:E.
  - rewrite !count_marks_app, IH. unfold num_to_string.
    now rewrite count_marks_uint.
  - cbn [count_marks]. now rewrite E, IH.
Qed.

Lemma count_marks_newlines (sql : string) :
  count_marks (replace_newlines sql) = count_marks sql.
Proof.
  induction sql as [| c rest IH]; [reflexivity |].
  cbn [replace_newlines count_marks]. rewrite IH. f_equal.
  destruct (Ascii.eqb_spec c "010") as [-> | _]; reflexivity.
Qed.

Lemma count_newlines_replaced (sql : string) :
  count_newlines (replace_newlines sql) = 0.
Proof.
  induction sql as [| c rest IH]; [reflexivity |].
  cbn [replace_newlines count_newlines]. rewrite IH.
  destruct (Ascii.eqb c "010") eqn:E; [reflexivity | now rewrite E].
Qed.

Lemma replace_placeholders_none (sql : string) :
  forall n, count_marks sql = 0 -> replace_placeholders sql n = sql.
Proof.
  induction sql as [| c rest IH]; intros n H; [reflexivity |].
  cbn [replace_placeholders count_marks] in *.
  destruct (Ascii.eqb c "?"); [discriminate |]. now rewrite IH.
Qed.

Lemma replace_newlines_none (sql : string) :
  count_newlines sql = 0 -> replace_newlines sql = sql.
Proof.
  induction sql as [| c rest IH]; intros H; [reflexivity |].
  cbn [replace_newlines count_newlines] in *.
  destruct (Ascii.eqb c "010"); [discriminate |]. now rewrite IH.
Qed.

Lemma length_replace_newlines (sql : string) :
  String.length (replace_newlines sql) = String.length sql.
Proof. induction sql as [| c rest IH]; simpl; congruence. Qed.

(** X14.  For array parameters, the statement posted to the hosted
    endpoint contains no [?] and no newline, whatever the statement and
    however many parameters there are; replacing the newlines keeps the
    length of the text; and a statement with neither [?] nor newline is
    posted as it is. *)
Theorem hosted_statement_text (sql : string) (vs : list JsValue) :
  let posted := replace_newlines (snd (convert_params sql (VArr vs))) in
  count_marks posted = 0
  /\ count_newlines posted = 0
  /\ String.length (replace_newlines sql) = String.length sql
  /\ (count_marks sql = 0 -> count_newlines sql = 0 -> posted = sql).
Proof.
  cbn [convert_params snd]. repeat split.
  - now rewrite count_marks_newlines, count_marks_replaced.
  - apply count_newlines_replaced.
  - apply length_replace_newlines.
  - intros Hm Hn. rewrite replace_placeholders_none by assumption.
    now apply replace_newlines_none.
Qed.

Lemma hosted_statement_text_witness :
  replace_newlines (snd (convert_params "SELECT 1" (VArr [VNum 1])))
  = "SELECT 1".
Proof.
  refine (proj2 (proj2 (proj2 (hosted_statement_text "SELECT 1" [VNum 1])))
            _ _); reflexivity.
Defined.

Lemma nodup_param_keys (n : nat) :
  forall a, NoDup (map param_key (seq a n)).
Proof.
  induction n as [| n IH]; intros a; simpl; constructor; [| apply IH].
  intros Hin. apply in_map_iff in Hin. destruct Hin as [j [Heq Hj]].
  apply OperationFacts.param_key_inj in Heq. apply in_seq in Hj. lia.
Qed.

Lemma obj_get_combine_nth (ks : list string) :
  forall (vs : list JsValue) (i : nat),
    NoDup ks -> length vs = length ks -> i < length ks ->
    obj_get (combine ks vs) (nth i ks "") = nth i vs VUndefined.
Proof.
  induction ks as [| k ks IH]; intros [| v vs] i Hnd Hlen Hi; simpl in *;
    try lia; try discriminate.
  inversion Hnd as [| ? ? Hk Hnd']; subst.
  destruct i as [| i].
  - now rewrite String.eqb_refl.
  - destruct (String.eqb_spec k (nth i ks "")) as [E | _].
    + exfalso. apply Hk. rewrite E. apply nth_In. lia.
    + apply IH; [assumption | lia | lia].
Qed.

(** X15.  The mapping built from array parameters has one property per
    array element, under the pairwise distinct keys [param0], [param1], ...
    in that order, and the value at position [i] of the array is the one
    found under [param<i>]. *)
Theorem hosted_params_lookup (sql : string) (vs : list JsValue) :
  exists o,
    fst (convert_params sql (VArr vs)) = VObj o
    /\ length o = length vs
    /\ NoDup (obj_keys o)
    /\ obj_keys o = map param_key (seq 0 (length vs))
    /\ (forall i, i < length vs ->
          obj_get o (param_key i) = nth i vs VUndefined).
Proof.
  exists (spec_param_mapping vs).
  cbn [convert_params fst]. rewrite OperationFacts.reduce_params_spec.
  assert (Hlen : length vs = length (map param_key (seq 0 (length vs))))
    by now rewrite length_map, length_seq.
  assert (Hkeys : obj_keys (spec_param_mapping vs)
                  = map param_key (seq 0 (length vs))).
  { unfold spec_param_mapping.
    change (fun i => ("param" ++ num_to_string i)%string) with param_key.
    apply TransformerFacts.obj_keys_combine. exact Hlen. }
  split; [reflexivity |]. split.
  - unfold spec_param_mapping.
    rewrite length_combine, length_map, length_seq. apply Nat.min_id.
  - split; [rewrite Hkeys; apply nodup_param_keys |].
    split; [exact Hkeys |].
    intros i Hi. unfold spec_param_mapping.
    change (fun i => ("param" ++ num_to_string i)%string) with param_key.
    replace (param_key i)
      with (nth i (map param_key (seq 0 (length vs))) "").
    + apply obj_get_combine_nth;
        [apply nodup_param_keys | exact Hlen | now rewrite <- Hlen].
    + rewrite (nth_indep _ "" (param_key 0))
        by now rewrite length_map, length_seq.
      rewrite map_nth, seq_nth by assumption. reflexivity.
Qed.

(** X26.  [executeQuery] has no handling of its own for a stage that
    throws.  An error of [applyRLS] ends the call before any cache access or
    backend call; an error of the cache lookup ends it before any backend
    call; and an error of the cache write ends it after the internal engine
    has run the statement: the engine's answer is dropped and the engine's
    effect stays.  Each time the caller gets the stage's error, rethrown. *)
Theorem stage_errors_are_rethrown {C : Collaborators}
  (sql : string) (params : JsValue) (ds : DataSource)
  (cfg : option StarbaseDBConfiguration) (st : State)
  (b : bool) (w1 : World) :
  isQueryAllowed sql (feature_flag cfg allowlist false) ds cfg (world st)
  = (inr b, w1) ->
  let allow := EvAllowlist sql (feature_flag cfg allowlist false) in
  let rewritten := EvRLS sql (feature_flag cfg rls false) in
  let rls_step :=
    applyRLS sql (feature_flag cfg rls false) (external_dialect ds) ds cfg w1 in
  (forall isRaw e w2,
      rls_step = (inl e, w2) ->
      executeQuery sql params isRaw (Some ds) cfg st
      = (inl (rethrow e), mkState w2 (trace st ++ [allow; rewritten])))
  /\ (forall sql' w2 e w3,
         rls_step = (inr sql', w2) ->
         beforeQueryCache sql' params ds w2 = (inl e, w3) ->
         executeQuery sql params false (Some ds) cfg st
         = (inl (rethrow e),
            mkState w3
              (trace st ++ [allow; rewritten; EvCacheLookup sql' params])))
  /\ (forall sql' w2 w3 response w4 e w5,
         source ds = Internal ->
         rls_step = (inr sql', w2) ->
         beforeQueryCache sql' params ds w2 = (inr None, w3) ->
         rpc_executeQuery sql' params (Some false) w3 = (inr response, w4) ->
         afterQueryCache sql' params response ds w4 = (inl e, w5) ->
         executeQuery sql params false (Some ds) cfg st
         = (inl (rethrow e),
            mkState w5
              (trace st
               ++ [allow; rewritten; EvCacheLookup sql' params;
                   EvRpc sql' params (Some false);
                   EvCacheStore sql' params response]))).
Proof.
  intros Hallow allow rewritten rls_step. subst allow rewritten rls_step.
  split; [| split].
  - intros isRaw e w2 Hrls. rewrite executeQuery_stages. cbv zeta.
    rewrite Hallow, Hrls. now rewrite <- app_assoc.
  - intros sql' w2 e w3 Hrls Hc. rewrite executeQuery_stages. cbv zeta.
    rewrite Hallow, Hrls. unfold call. cbn [world trace]. rewrite Hc.
    now rewrite <- !app_assoc.
  - intros sql' w2 w3 response w4 e w5 Hsrc Hrls Hc Hrpc Hstore.
    rewrite executeQuery_stages. cbv zeta.
    rewrite Hallow, Hrls. unfold call at 1. cbn [world trace]. rewrite Hc.
    unfold dispatch_query. rewrite Hsrc. unfold call at 1. cbn [world trace].
    rewrite Hrpc. unfold call at 1. cbn [world trace]. rewrite Hstore.
    now rewrite <- !app_assoc.
Qed.

Lemma stage_errors_are_rethrown_witness :
  executeQuery "INSERT INTO t VALUES (1)" VUndefined false
    (Some Sample.internal) (Some Sample.plain) Edge.start
  = (inl (rethrow (Error "cache unavailable")),
     Edge.state ["INSERT INTO t VALUES (1)"]
       ([] ++ [EvAllowlist "INSERT INTO t VALUES (1)" false;
               EvRLS "INSERT INTO t VALUES (1)" false;
               EvCacheLookup "INSERT INTO t VALUES (1)" VUndefined;
               EvRpc "INSERT INTO t VALUES (1)" VUndefined (Some false);
               EvCacheStore "INSERT INTO t VALUES (1)" VUndefined
                 (ObjResp [])])).
Proof.
  refine (proj2 (proj2
            (stage_errors_are_rethrown (C := Edge.collaborators)
               "INSERT INTO t VALUES (1)" VUndefined Sample.internal
               (Some Sample.plain) Edge.start true [] _))
            "INSERT INTO t VALUES (1)" [] [] (ObjResp [])
            ["INSERT INTO t VALUES (1)"] (Error "cache unavailable")
            ["INSERT INTO t VALUES (1)"] _ _ _ _ _); reflexivity.
Defined.

(** X27.  In raw mode on an internal source, a result of the engine that
    has columns but no rows comes back without its columns, and the counts
    the engine reported are replaced: the caller gets no columns, no rows
    and a [meta] of zeros. *)
Theorem raw_mode_empty_result_loses_columns {C : Collaborators}
  (sql : string) (params : JsValue) (ds : DataSource)
  (cfg : option StarbaseDBConfiguration) (st : State)
  (b : bool) (w1 : World) (sql' : string) (w2 : World)
  (r0 : RawQueryResponse) (w3 : World) :
  source ds = Internal ->
  isQueryAllowed sql (feature_flag cfg allowlist false) ds cfg (world st)
  = (inr b, w1) ->
  applyRLS sql (feature_flag cfg rls false) (external_dialect ds) ds cfg w1
  = (inr sql', w2) ->
  rpc_executeQuery sql' params (Some true) w2 = (inr (RawResp r0), w3) ->
  rows r0 = [] ->
  executeQuery sql params true (Some ds) cfg st
  = (inr (RawResp (mkRaw [] [] (mkMeta 0 0))),
     mkState w3
       (trace st
        ++ [EvAllowlist sql (feature_flag cfg allowlist false);
            EvRLS sql (feature_flag cfg rls false);
            EvRpc sql' params (Some true)])).
Proof.
  intros Hsrc Hallow Hrls Hrpc Hrows.
  rewrite executeQuery_stages. cbv zeta.
  rewrite Hallow, Hrls. cbn [ret].
  unfold dispatch_query. rewrite Hsrc. unfold call at 1. cbn [world trace].
  rewrite Hrpc. rewrite afterQuery_raw. cbn [transformRawResults].
  rewrite Hrows. cbn. now rewrite <- !app_assoc.
Qed.

Lemma raw_mode_empty_result_loses_columns_witness :
  executeQuery "SELECT id, name FROM t WHERE 1 = 0" VUndefined true
    (Some Sample.internal) (Some Sample.plain) Edge.start
  = (inr (RawResp (mkRaw [] [] (mkMeta 0 0))),
     Edge.state ["SELECT id, name FROM t WHERE 1 = 0"]
       ([] ++ [EvAllowlist "SELECT id, name FROM t WHERE 1 = 0" false;
               EvRLS "SELECT id, name FROM t WHERE 1 = 0" false;
               EvRpc "SELECT id, name FROM t WHERE 1 = 0" VUndefined
                 (Some true)])).
Proof.
  apply (raw_mode_empty_result_loses_columns (C := Edge.collaborators)
           "SELECT id, name FROM t WHERE 1 = 0" VUndefined Sample.internal
           (Some Sample.plain) Edge.start true []
           "SELECT id, name FROM t WHERE 1 = 0" []
           (mkRaw ["id"; "name"] [] (mkMeta 0 3))
           ["SELECT id, name FROM t WHERE 1 = 0"]); reflexivity.
Defined.

End OperationMore.

(* ===================================================================== *)
(** ** More on the handler                                                *)
(* ===================================================================== *)

Module HandlerMore.

(** *** [trim] and the check on [sql] *)

Lemma trim_start_head (s : string) (c : ascii) (r : string) :
  trim_start s = String c r -> is_space c = false.
Proof.
  induction s as [| x s IH]; simpl; [discriminate |].
  destruct (is_space x) eqn:E; [exact IH |].
  intros H. injection H as <- _. exact E.
Qed.

Lemma trim_start_empty (s : string) :
  trim_start s = EmptyString <-> all_space s = true.
Proof.
  induction s as [| x s IH]; simpl; [tauto |].
  destruct (is_space x); simpl; [exact IH |].
  split; discriminate.
Qed.

Lemma trim_end_empty (s : string) :
  trim_end s = EmptyString <-> all_space s = true.
Proof.
  induction s as [| x s IH]; simpl; [tauto |].
  destruct (trim_end s) as [| y r] eqn:E.
  - destruct (is_space x); simpl; [tauto |]. split; discriminate.
  - split; [discriminate |]. intros H. apply andb_prop in H.
    destruct H as [_ H]. apply IH in H. discriminate.
Qed.

Lemma trim_end_head (s : string) (c : ascii) (r' : string) :
  trim_end s = String c r' -> exists r, s = String c r.
Proof.
  destruct s as [| x s]; simpl; [discriminate |].
  destruct (trim_end s); [destruct (is_space x) |]; intros H;
    try discriminate; injection H as <- _; eauto.
Qed.

Lemma trim_end_cons (x : ascii) (t : string) :
  trim_end (String x t)
  = match trim_end t with
    | EmptyString => if is_space x then EmptyString else String x EmptyString
    | String a b => String x (String a b)
    end.
Proof. reflexivity. Qed.

Lemma trim_end_idempotent (s : string) : trim_end (trim_end s) = trim_end s.
Proof.
  induction s as [| x s IH]; [reflexivity |].
  rewrite (trim_end_cons x s).
  destruct (trim_end s) as [| y r] eqn:E.
  - destruct (is_space x) eqn:Ex; [reflexivity |].
    rewrite trim_end_cons. cbn [trim_end]. now rewrite Ex.
  - rewrite trim_end_cons, IH. reflexivity.
Qed.

Lemma all_space_trim_start (s : string) :
  all_space (trim_start s) = true -> all_space s = true.
Proof.
  induction s as [| x s IH]; simpl; [tauto |].
  destruct (is_space x) eqn:E; simpl; [exact IH | now rewrite E].
Qed.

Lemma trim_empty (s : string) : trim s = EmptyString <-> all_space s = true.
Proof.
  unfold trim. rewrite trim_end_empty. split.
  - apply all_space_trim_start.
  - intros H. apply trim_start_empty in H. now rewrite H.
Qed.

Lemma trim_idempotent (s : string) : trim (trim s) = trim s.
Proof.
  unfold trim.
  destruct (trim_end (trim_start s)) as [| c r'] eqn:E; [reflexivity |].
  destruct (trim_end_head _ _ _ E) as [r Hr].
  apply trim_start_head in Hr.
  cbn [trim_start]. rewrite Hr, <- E. apply trim_end_idempotent.
Qed.

(** X16.  The check on [sql] lets a value through exactly when it is a
    string with at least one character that is not white space; [trim]
    gives the empty string exactly on strings of white space, and trimming
    twice is trimming once. *)
Theorem blank_sql_is_invalid (sql : JsValue) :
  (invalid_sql sql = false
   <-> exists s, sql = VStr s /\ all_space s = false)
  /\ (forall s, trim s = EmptyString <-> all_space s = true)
  /\ (forall s, trim (trim s) = trim s).
Proof.
  split; [| split; [apply trim_empty | apply trim_idempotent]].
  split.
  - destruct sql; try discriminate. cbn. intros H. exists s. split; [reflexivity |].
    destruct (all_space s) eqn:E; [| reflexivity].
    apply trim_empty in E. rewrite E in H. discriminate.
  - intros [s [-> H]]. cbn.
    destruct (trim s) eqn:E; [| reflexivity].
    apply trim_empty in E. congruence.
Qed.

(** *** The checks on a batch *)

Lemma validate_query_returned (item : JsValue) (q : Query) :
  validate_query item = inr q -> element_of item q.
Proof.
  unfold validate_query, element_of, valid_query.
  destruct (get_prop item "sql") as [sql |]; [| discriminate].
  destruct (get_prop item "params") as [params |]; [| discriminate].
  destruct (invalid_sql sql) eqn:Hsql; [discriminate |].
  destruct (invalid_params params) eqn:Hparams; [discriminate |].
  intros H. injection H as <-. cbn [q_sql q_params].
  destruct sql; try discriminate. cbn [sql_text]. auto.
Qed.

(** X17.  The checks on a batch go through the elements in order.  When
    they all pass, there is one statement per element, in the same order,
    with the element's [sql] string and [params] value; when they do not,
    the error is that of the first element that fails, the elements before
    it having passed. *)
Theorem batch_validation_in_order (transaction : list JsValue) :
  (forall qs,
      validate_transaction transaction = inr qs ->
      Forall2 element_of transaction qs)
  /\ (forall e,
         validate_transaction transaction = inl e ->
         exists pre item post qs,
           transaction = pre ++ item :: post
           /\ validate_transaction pre = inr qs
           /\ validate_query item = inl e).
Proof.
  induction transaction as [| item items [IHok IHerr]];
    (split; [intros qs H | intros e H]); cbn [validate_transaction] in H.
  - injection H as <-. constructor.
  - discriminate.
  - destruct (validate_query item) as [e | q] eqn:Hq; [discriminate |].
    destruct (validate_transaction items) as [e | qs'] eqn:Hrest;
      [discriminate |].
    injection H as <-. constructor;
      [now apply validate_query_returned | now apply IHok].
  - destruct (validate_query item) as [e0 | q] eqn:Hq.
    + injection H as <-. exists [], item, items, []. auto.
    + destruct (validate_transaction items) as [e1 | qs'] eqn:Hrest;
        [| discriminate].
      injection H as <-.
      destruct (IHerr e1 eq_refl) as [pre [it [post [qs [-> [Hpre Hit]]]]]].
      exists (item :: pre), it, post, (q :: qs).
      cbn [validate_transaction app]. now rewrite Hq, Hpre.
Qed.

Lemma batch_validation_in_order_witness :
  Forall2 element_of
    [VObj [("sql", VStr "SELECT 1")];
     VObj [("sql", VStr "SELECT ?"); ("params", VArr [VNum 2])]]
    [mkQuery "SELECT 1" VUndefined; mkQuery "SELECT ?" (VArr [VNum 2])].
Proof.
  refine (proj1 (batch_validation_in_order _) _ _). reflexivity.
Defined.

(** *** The answers of [queryRoute] *)

Lemma error_message_nonempty (e : Thrown) : error_message e <> "".
Proof.
  unfold error_message.
  destruct e as [m | | | [m |]]; try discriminate; destruct m; cbn; discriminate.
Qed.

Lemma well_formed_error (e : Thrown) :
  well_formed_response (createResponse None (Some (error_message e)) 500).
Proof.
  right. cbn. split; [now right |]. split; [reflexivity |].
  eexists. split; [reflexivity | apply error_message_nonempty].
Qed.

Lemma well_formed_400 (msg : string) :
  msg <> "" -> well_formed_response (createResponse None (Some msg) 400).
Proof.
  intros H. right. cbn. split; [now left |]. split; [reflexivity |]. eauto.
Qed.

Lemma well_formed_200 (body : ResultBody) :
  well_formed_response (createResponse (Some body) None 200).
Proof. left. cbn. repeat split. discriminate. Qed.

Section WithCollaborators.

Context {C : Collaborators}.

Lemma state_eta (st : State) : st = mkState (world st) (trace st ++ []).
Proof. destruct st. cbn. now rewrite app_nil_r. Qed.

(** The three ways [queryRoute] ends. *)
Lemma queryRoute_cases this req isRaw st :
  exists response evs,
    queryRoute this req isRaw st
    = (inr response, mkState (world st) (trace st ++ evs))
    /\ ((evs = []
         /\ exists msg,
              msg <> "" /\ response = createResponse None (Some msg) 400)
        \/ (exists e,
              evs = [EvConsoleErrorWith "Query Route Error:" e]
              /\ response = createResponse None (Some (error_message e)) 500)
        \/ (exists body,
              evs = [EvConsoleError "Data source not found."]
              /\ response = createResponse (Some body) None 200)).
Proof.
  assert (H400 : forall msg : string,
             msg <> "" ->
             exists response evs,
               (inr (createResponse None (Some msg) 400), st)
               = (@inr Thrown Response response,
                  mkState (world st) (trace st ++ evs))
               /\ ((evs = []
                    /\ exists msg,
                         msg <> ""
                         /\ response = createResponse None (Some msg) 400)
                   \/ (exists e,
                         evs = [EvConsoleErrorWith "Query Route Error:" e]
                         /\ response
                            = createResponse None (Some (error_message e)) 500)
                   \/ (exists body,
                         evs = [EvConsoleError "Data source not found."]
                         /\ response = createResponse (Some body) None 200))).
  { intros msg Hmsg. exists (createResponse None (Some msg) 400), [].
    split; [rewrite app_nil_r; now destruct st |].
    left. split; [reflexivity |]. now exists msg. }
  unfold queryRoute, try_catch.
  destruct (negb _); [apply H400; discriminate |].
  unfold bind at 1.
  destruct (json req) as [e | body]; cbn [lift throw ret].
  { eexists. eexists. split; [reflexivity |]. right. left. now exists e. }
  destruct (get_prop body "sql") as [sql |];
    [| eexists; eexists; split; [reflexivity |]; right; left; eauto].
  destruct (get_prop body "params") as [params |];
    [| eexists; eexists; split; [reflexivity |]; right; left; eauto].
  destruct (get_prop body "transaction") as [transaction |];
    [| eexists; eexists; split; [reflexivity |]; right; left; eauto].
  destruct transaction as [| | | | | [| queryObj more] | |];
    try (destruct (invalid_sql sql);
         [apply H400; discriminate |];
         destruct (invalid_params params);
         [apply H400; discriminate |];
         eexists; eexists; split; [reflexivity |]; right; right; eauto).
  unfold bind at 1.
  destruct (validate_transaction (queryObj :: more)) as [e | queries];
    cbn [lift throw ret].
  - eexists. eexists. split; [reflexivity |]. right. left. now exists e.
  - eexists. eexists. split; [reflexivity |]. right. right. eauto.
Qed.

Lemma queryRoute_answers this req isRaw st :
  exists response evs,
    queryRoute this req isRaw st
    = (inr response, mkState (world st) (trace st ++ evs))
    /\ well_formed_response response
    /\ Forall console_event evs.
Proof.
  destruct (queryRoute_cases this req isRaw st)
    as [response [evs [H [[-> [msg [Hmsg ->]]] | [[e [-> ->]] | [body [-> ->]]]]]]];
    eexists; eexists; (split; [exact H |]).
  - split; [now apply well_formed_400 | constructor].
  - split; [apply well_formed_error | repeat constructor].
  - split; [apply well_formed_200 | repeat constructor].
Qed.

Lemma handleError_queryRoute this req isRaw st :
  handleError (queryRoute this req isRaw) st = queryRoute this req isRaw st.
Proof.
  unfold handleError, try_catch.
  destruct (queryRoute_answers this req isRaw st) as [r [evs [H _]]].
  now rewrite H.
Qed.

(** *** Events are only appended by the handler too *)

Lemma monotone_queryRoute this req isRaw : monotone (queryRoute this req isRaw).
Proof.
  intros st r st' H.
  destruct (queryRoute_answers this req isRaw st) as [r0 [evs [H0 _]]].
  rewrite H0 in H. injection H as _ <-. now exists evs.
Qed.

Lemma monotone_dispatch table req : monotone (dispatch table req).
Proof.
  induction table as [| [this r] table IH]; cbn [dispatch].
  - apply OperationFacts.monotone_ret.
  - destruct (match_method (r_method r) req); [| exact IH].
    destruct (match_pattern (r_pattern r) (path req)); [| exact IH].
    destruct (run_middleware this (r_middleware r) o None);
      [apply OperationFacts.monotone_ret |].
    unfold run_handler, delegate.
    destruct (r_handler r);
      try apply OperationFacts.monotone_call;
      [apply OperationFacts.monotone_ret | apply monotone_queryRoute].
Qed.

Lemma handleError_no_error (m : M Response) st e st' :
  handleError m st = (inl e, st') -> forall msg, e <> Error msg.
Proof.
  unfold handleError, try_catch.
  destruct (m st) as [[e0 | r] s]; [| discriminate].
  destruct e0; cbn; intros H; try discriminate;
    injection H as <- _; discriminate.
Qed.

Lemma monotone_handleError (m : M Response) :
  monotone m -> monotone (handleError m).
Proof.
  intros Hm. unfold handleError.
  apply OperationFacts.monotone_try_catch; [exact Hm |].
  intros [msg | | | o];
    (apply OperationFacts.monotone_ret || apply OperationFacts.monotone_throw).
Qed.

Lemma dispatch_unmatched this req (table : list Route) :
  (forall r, In r table ->
     match_method (r_method r) req = false
     \/ match_pattern (r_pattern r) (path req) = None) ->
  dispatch (map (pair this) table) req = ret not_found.
Proof.
  induction table as [| r table IH]; intros H; cbn [map dispatch];
    [reflexivity |].
  destruct (H r (or_introl eq_refl)) as [Hm | Hp].
  - rewrite Hm. apply IH. intros r' Hin. apply H. now right.
  - destruct (match_method (r_method r) req);
      rewrite ?Hp; apply IH; intros r' Hin; apply H; now right.
Qed.

(** On the application as the module creates it, [handle] is the clean-up
    and then the answer of the routes of [this]. *)
Lemma handle_dispatch this req now st (m : M Response) :
  dispatch (map (pair this) (routes this)) req = m ->
  handle this req now fresh_app st
  = ((expireCache this now ;; handleError m) st, served this fresh_app).
Proof. intros <-. reflexivity. Qed.

End WithCollaborators.

(** X18.  [queryRoute] never throws and never reaches a collaborator: the
    state of the collaborators is left as it was and the events it adds are
    console messages.  Its answer has status 200, a result and no error, or
    status 400 or 500, no result and an error message that is not empty. *)
Theorem query_route_always_answers {C : Collaborators}
  (this : StarbaseDB) (req : Request) (isRaw : bool) (st : State) :
  exists response evs,
    queryRoute this req isRaw st
    = (inr response, mkState (world st) (trace st ++ evs))
    /\ well_formed_response response
    /\ Forall console_event evs.
Proof. apply queryRoute_answers. Qed.















(** X28.  A batch whose elements all pass the checks is not run: the
    options object takes the place of the statements, [executeTransaction]
    finds no data source, and the request is answered with status 200 and an
    empty list of results; the only event is the console message. *)
Theorem valid_batch_runs_nothing {C : Collaborators}
  (this : StarbaseDB) (item : JsValue) (items : list JsValue) (isRaw : bool)
  (st : State) (queries : list Query) :
  validate_transaction (item :: items) = inr queries ->
  queryRoute this (transaction_request (item :: items)) isRaw st
  = (inr (createResponse (Some (BatchResult [])) None 200),
     logged st (EvConsoleError "Data source not found.")).
Proof. apply HandlerFacts.queryRoute_batch_valid. Qed.

Lemma valid_batch_runs_nothing_witness :
  queryRoute (mkStarbaseDB Sample.internal Sample.plain)
    (transaction_request
       [VObj [("sql", VStr "INSERT INTO t VALUES (1)")];
        VObj [("sql", VStr "SELECT 1/0")]])
    false Sample.start
  = (inr (createResponse (Some (BatchResult [])) None 200),
     logged Sample.start (EvConsoleError "Data source not found.")).
Proof.
  apply (valid_batch_runs_nothing (C := Sample.collaborators)
           (mkStarbaseDB Sample.internal Sample.plain)
           (VObj [("sql", VStr "INSERT INTO t VALUES (1)")])
           [VObj [("sql", VStr "SELECT 1/0")]] false Sample.start
           [mkQuery "INSERT INTO t VALUES (1)" VUndefined;
            mkQuery "SELECT 1/0" VUndefined]).
  reflexivity.
Defined.

End HandlerMore.
